(** * Boop: the debounced stabilization-and-move engine of [app.py]

    A shallow embedding of [build_extension_map], [DownloadHandler]
    ([on_created], [on_modified], [process_pending], [move_file]) and
    [Boop.reorganize_all], with the properties of the written
    specification stated and settled against it.

    Modelling conventions.
    - Strings are byte strings; [str.lower] is modelled on the ASCII
      letters, every other byte is left as it is.
    - A [pathlib.Path] is the list of its components below the root; the
      root itself is the empty list.  Category names and file names are
      single, non-empty components, so [folder / name] appends one
      component.
    - [PurePath.suffix] and [PurePath.stem] follow CPython up to 3.13
      ([rfind] of the last dot, which must be neither the first nor the
      last character of the name).
    - The file system is a finite map from paths to nodes.  Symbolic links,
      permissions and devices are not modelled: the errors that remain are
      the ones [mkdir], [iterdir] and [shutil.move] raise on the shape of
      the tree.
    - [time.time()] is an argument of each operation; time stamps are
      integers of an arbitrary unit (the comparison of the source is the
      only operation on them besides the subtraction).
    - A Python [dict] is an association list in insertion order without
      duplicate keys.
    - The callback [on_file_moved] is observed through the log of its
      invocations; it is assumed to return normally and to leave the file
      system and the handler alone.  [move_file_calling], at the end of the
      definitions, is [move_file] without this assumption.
    - Calls are atomic: the observer thread and the polling thread are
      interleaved call by call, and nothing else touches the file system
      while a call runs. *)

From stdpp Require Import base gmap list strings pretty.
From Stdlib Require Import Ascii ZArith Lia.

(** ** Byte strings *)

Definition lower_char (c : ascii) : ascii :=
  let n := nat_of_ascii c in
  if (65 <=? n)%nat && (n <=? 90)%nat then ascii_of_nat (n + 32) else c.

Fixpoint lower (s : string) : string :=
  match s with
  | EmptyString => EmptyString
  | String c s' => String (lower_char c) (lower s')
  end.

(** [s.startswith(".")] *)
Definition startswith_dot (s : string) : bool :=
  match s with
  | String c _ => bool_decide (c = "."%char)
  | EmptyString => false
  end.

(** [s.rfind(".")], [None] standing for Python's [-1]. *)
Fixpoint rfind_dot (s : string) : option nat :=
  match s with
  | EmptyString => None
  | String c s' =>
      match rfind_dot s' with
      | Some i => Some (S i)
      | None => if bool_decide (c = "."%char) then Some 0%nat else None
      end
  end.

(** Python slices [s[:i]] and [s[i:]]. *)
Definition str_take (i : nat) (s : string) : string := String.substring 0 i s.
Definition str_drop (i : nat) (s : string) : string :=
  String.substring i (String.length s - i) s.

(** ** pathlib *)

Abbreviation path := (list string).

Module PurePath.

Definition parent (p : path) : path := removelast p.

Definition name (p : path) : string := List.last p "".

(** The test [0 < i < len(name) - 1] of [PurePath.suffix] and
    [PurePath.stem], [i] being [name.rfind(".")]. *)
Definition split_index (nm : string) : option nat :=
  match rfind_dot nm with
  | Some i =>
      if (0 <? i)%nat && (i <? String.length nm - 1)%nat then Some i else None
  | None => None
  end.

Definition suffix (p : path) : string :=
  match split_index (name p) with
  | Some i => str_drop i (name p)
  | None => ""
  end.

Definition stem (p : path) : string :=
  match split_index (name p) with
  | Some i => str_take i (name p)
  | None => name p
  end.

(** [folder / component] *)
Definition join (p : path) (s : string) : path := p ++ [s].

End PurePath.

Infix "//" := PurePath.join (at level 40, left associativity).

(** ** Extension classifier *)

(** [build_extension_map(categories)]: the table is the list of the items
    of the [categories] dict in iteration order. *)
Definition build_extension_map (categories : list (string * list string))
  : gmap string string :=
  foldl (fun ext_map '(category, extensions) =>
           foldl (fun ext_map ext => <[lower ext := category]> ext_map)
                 ext_map extensions)
        ∅ categories.

(** ** The world outside the handler: file system and observable effects *)

Inductive node := File (data : string) | Dir.

#[global] Instance node_eq_dec : EqDecision node.
Proof. solve_decision. Defined.

Inductive exn :=
| FileExistsError
| FileNotFoundError
| NotADirectoryError
| ShutilError
| OutOfFuel.

(** [fs]: the tree, the root directory being the entry at [[]].
    [moves]: the calls of [shutil.move] that succeeded, oldest first.
    [notified]: the calls of the callback, oldest first.
    [last_file]: [Boop.last_file]. *)
Record World := mkWorld {
  fs : gmap path node;
  moves : list (path * path);
  notified : list (path * string);
  last_file : option path
}.

Definition set_fs (f : gmap path node) (w : World) : World :=
  mkWorld f (moves w) (notified w) (last_file w).

Inductive outcome (A : Type) :=
| Returns (a : A) (w : World)
| Raises (e : exn) (w : World).
Arguments Returns {A} a w.
Arguments Raises {A} e w.

(** Computations that read and write the world and may raise. *)
Definition M (A : Type) : Type := World -> outcome A.

Definition ret {A} (a : A) : M A := fun w => Returns a w.

Definition bind {A B} (c : M A) (k : A -> M B) : M B :=
  fun w => match c w with
           | Returns a w' => k a w'
           | Raises e w' => Raises e w'
           end.

Notation "'let*' x ':=' c 'in' k" := (bind c (fun x => k))
  (at level 10, x name, c at level 100, k at level 200).
Notation "c1 ;; c2" := (bind c1 (fun _ => c2))
  (at level 100, c2 at level 200, right associativity).

(** *** File-system primitives *)

Definition occupied (f : gmap path node) (p : path) : bool :=
  bool_decide (is_Some (f !! p)).

(** [Path.exists()] *)
Definition path_exists (p : path) : M bool :=
  fun w => Returns (occupied (fs w) p) w.

(** [Path.is_dir()] *)
Definition is_dir (p : path) : M bool :=
  fun w => Returns (bool_decide (fs w !! p = Some Dir)) w.

(** [Path.mkdir(exist_ok=True)]: an existing directory is accepted, an
    existing file is not, and the parent must be a directory. *)
Definition mkdir_exist_ok (p : path) : M unit :=
  fun w =>
    match fs w !! p with
    | Some Dir => Returns tt w
    | Some (File _) => Raises FileExistsError w
    | None =>
        match fs w !! PurePath.parent p with
        | Some Dir => Returns tt (set_fs (<[p := Dir]> (fs w)) w)
        | Some (File _) => Raises NotADirectoryError w
        | None => Raises FileNotFoundError w
        end
    end.

(** The entries directly inside [d]. *)
Definition is_child (d p : path) : bool :=
  bool_decide (p <> [] /\ PurePath.parent p = d).

Definition children (f : gmap path node) (d : path) : list path :=
  filter (fun p => is_child d p = true) (map fst (map_to_list f)).

(** [Path.iterdir()]: the listing is taken once, in an order the operating
    system chooses (here: the order of the map). *)
Definition iterdir (d : path) : M (list path) :=
  fun w =>
    match fs w !! d with
    | Some Dir => Returns (children (fs w) d) w
    | Some (File _) => Raises NotADirectoryError w
    | None => Raises FileNotFoundError w
    end.

(** A directory moves with everything beneath it. *)
Definition relocate_tree (src dst : path) (f : gmap path node)
  : gmap path node :=
  filter (fun kv => ~ src `prefix_of` kv.1) f
  ∪ list_to_map
      ((fun kv : path * node => (dst ++ drop (length src) kv.1, kv.2))
         <$> map_to_list (filter (fun kv => src `prefix_of` kv.1) f)).

Definition relocate (src dst : path) (f : gmap path node)
  : gmap path node :=
  match f !! src with
  | Some (File d) => <[dst := File d]> (delete src f)
  | Some Dir => relocate_tree src dst f
  | None => f
  end.

(** [shutil.move(src, dst)] by [os.rename]: a destination that is a
    directory receives the source under its own name; a directory cannot
    move into itself; the destination's parent must be a directory.  The
    copying fallback across devices is not modelled. *)
Definition shutil_move (src dst : path) : M path :=
  fun w =>
    let dst_is_dir := bool_decide (fs w !! dst = Some Dir) in
    let real_dst := if dst_is_dir then dst // PurePath.name src else dst in
    if dst_is_dir && occupied (fs w) real_dst then Raises ShutilError w
    else
      match fs w !! src with
      | None => Raises FileNotFoundError w
      | Some n =>
          if bool_decide (n = Dir) && bool_decide (src `prefix_of` real_dst)
          then Raises ShutilError w
          else
            match fs w !! PurePath.parent real_dst with
            | Some Dir =>
                Returns real_dst
                  (mkWorld (relocate src real_dst (fs w))
                           (moves w ++ [(src, real_dst)])
                           (notified w) (last_file w))
            | Some (File _) => Raises NotADirectoryError w
            | None => Raises FileNotFoundError w
            end
      end.

(** A call of the registered callback. *)
Definition notify (dest : path) (category : string) : M unit :=
  fun w =>
    Returns tt (mkWorld (fs w) (moves w) (notified w ++ [(dest, category)])
                        (last_file w)).

Definition set_last_file (dest : path) : M unit :=
  fun w => Returns tt (mkWorld (fs w) (moves w) (notified w) (Some dest)).

(** *** Collision probing

    The [while dest_path.exists()] loop, with the number of iterations
    bounded by [fuel]; [probe_enough_fuel] shows that one more than the
    number of entries of the file system is always enough. *)
Fixpoint probe (fuel : nat) (f : gmap path node) (dest_folder : path)
  (stem ext : string) (dest_path : path) (counter : nat) : option path :=
  if occupied f dest_path then
    match fuel with
    | O => None
    | S fuel' =>
        probe fuel' f dest_folder stem ext
          (dest_folder // (stem +:+ "_" +:+ pretty counter +:+ ext))
          (S counter)
    end
  else Some dest_path.

Definition probe_loop (dest_folder : path) (stem ext : string)
  (dest_path : path) (counter : nat) : M path :=
  fun w =>
    match probe (S (size (fs w))) (fs w) dest_folder stem ext dest_path counter with
    | Some d => Returns d w
    | None => Raises OutOfFuel w
    end.

(** ** DownloadHandler *)

Record DownloadHandler := mkHandler {
  watch_folder : path;
  ext_map : gmap string string;
  debounce : Z;
  on_file_moved : bool;
  pending : list (path * Z)
}.

Definition set_pending (pd : list (path * Z)) (h : DownloadHandler)
  : DownloadHandler :=
  mkHandler (watch_folder h) (ext_map h) (debounce h) (on_file_moved h) pd.

Record Event := mkEvent {
  is_directory : bool;
  src_path : path
}.

(** *** The [pending] dict *)

Definition dict_mem (k : path) (d : list (path * Z)) : bool :=
  bool_decide (k ∈ d.*1).

(** [d[k] = v]: an existing key keeps its place, a new one goes last. *)
Definition dict_set (k : path) (v : Z) (d : list (path * Z))
  : list (path * Z) :=
  if dict_mem k d
  then (fun kv : path * Z => if bool_decide (kv.1 = k) then (k, v) else kv) <$> d
  else d ++ [(k, v)].

(** [d.pop(k, None)] *)
Definition dict_pop (k : path) (d : list (path * Z)) : list (path * Z) :=
  filter (fun kv => kv.1 <> k) d.

(** *** Event handlers *)

Definition on_created (h : DownloadHandler) (event : Event) (now : Z)
  : DownloadHandler :=
  if is_directory event then h
  else
    let p := src_path event in
    if bool_decide (PurePath.parent p <> watch_folder h) then h
    else if startswith_dot (PurePath.name p) then h
    else set_pending (dict_set p now (pending h)) h.

Definition on_modified (h : DownloadHandler) (event : Event) (now : Z)
  : DownloadHandler :=
  if is_directory event then h
  else
    let p := src_path event in
    if dict_mem p (pending h)
    then set_pending (dict_set p now (pending h)) h
    else h.

(** *** move_file *)

(** What a call of [move_file] evaluates to.  The function has no [return]
    statement, so this is always [NoValue] (Python's [None]). *)
Inductive move_result :=
| NoValue
| DestAndCategory (dest : path) (category : string).

Definition category_of (m : gmap string string) (p : path) : string :=
  default "Other" (m !! lower (PurePath.suffix p)).

Definition move_file (h : DownloadHandler) (p : path) : M move_result :=
  let ext := lower (PurePath.suffix p) in
  let category := default "Other" (ext_map h !! ext) in
  let dest_folder := watch_folder h // category in
  mkdir_exist_ok dest_folder ;;
  let dest_path := dest_folder // PurePath.name p in
  let* collides := path_exists dest_path in
  let* dest_path :=
    (if collides then probe_loop dest_folder (PurePath.stem p) ext dest_path 1
     else ret dest_path) in
  shutil_move p dest_path ;;
  (if on_file_moved h then notify dest_path category else ret tt) ;;
  ret NoValue.

(** *** process_pending *)

Fixpoint pending_loop (h : DownloadHandler) (now : Z)
  (items : list (path * Z)) (to_remove : list path) : M (list path) :=
  match items with
  | [] => ret to_remove
  | (p, last_modified) :: rest =>
      if (now - last_modified <? debounce h)%Z
      then pending_loop h now rest to_remove
      else
        let to_remove := to_remove ++ [p] in
        let* present := path_exists p in
        if negb present then pending_loop h now rest to_remove
        else move_file h p ;; pending_loop h now rest to_remove
  end.

Definition process_pending (h : DownloadHandler) (now : Z)
  : M DownloadHandler :=
  let* to_remove := pending_loop h now (pending h) [] in
  ret (set_pending (foldl (fun d p => dict_pop p d) (pending h) to_remove) h).

(** ** Boop.reorganize_all *)

Record Boop := mkBoop {
  config_categories : list (string * list string);
  boop_watch_folder : path;
  boop_on_file_moved : bool
}.

Fixpoint reorganize_loop (b : Boop) (m : gmap string string)
  (entries : list path) (count : nat) : M nat :=
  match entries with
  | [] => ret count
  | p :: rest =>
      let* d := is_dir p in
      if d || startswith_dot (PurePath.name p)
      then reorganize_loop b m rest count
      else
        let ext := lower (PurePath.suffix p) in
        let category := default "Other" (m !! ext) in
        let dest_folder := boop_watch_folder b // category in
        mkdir_exist_ok dest_folder ;;
        let dest_path := dest_folder // PurePath.name p in
        let* collides := path_exists dest_path in
        let* dest_path :=
          (if collides
           then probe_loop dest_folder (PurePath.stem p) ext dest_path 1
           else ret dest_path) in
        shutil_move p dest_path ;;
        let count := S count in
        set_last_file dest_path ;;
        (if boop_on_file_moved b then notify dest_path category else ret tt) ;;
        reorganize_loop b m rest count
  end.

Definition reorganize_all (b : Boop) : M nat :=
  let ext_map := build_extension_map (config_categories b) in
  let* entries := iterdir (boop_watch_folder b) in
  reorganize_loop b ext_map entries 0.

(** The handler object after a call of [process_pending] and the error
    that left it, if any: [self.pending] is written only after the loop,
    so a call that raises leaves the handler as it was. *)
Definition tick (h : DownloadHandler) (now : Z) (w : World)
  : DownloadHandler * World * option exn :=
  match process_pending h now w with
  | Returns h' w' => (h', w', None)
  | Raises e w' => (h, w', Some e)
  end.

(** ** The engine as a state machine

    The calls the handler receives, each with the reading of the clock it
    makes; a tick also carries the world it finds, which the environment
    may have changed since the previous call. *)
Inductive call :=
| RecordCreated (event : Event) (now : Z)
| RecordModified (event : Event) (now : Z)
| Tick (now : Z) (w : World).

Definition call_time (c : call) : Z :=
  match c with
  | RecordCreated _ now | RecordModified _ now | Tick now _ => now
  end.

Definition engine_step (h : DownloadHandler) (c : call) : DownloadHandler :=
  match c with
  | RecordCreated event now => on_created h event now
  | RecordModified event now => on_modified h event now
  | Tick now w => (tick h now w).1.1
  end.

Definition run (h : DownloadHandler) (cs : list call) : DownloadHandler :=
  foldl engine_step h cs.

(** [DownloadHandler.__init__] *)
Definition new_handler (watch : path) (m : gmap string string) (d : Z)
  (callback : bool) : DownloadHandler :=
  mkHandler watch m d callback [].

(** * Vocabulary of the statements *)

(** The world an outcome leaves, and a look at one path of it. *)
Definition after {A} (o : outcome A) : World :=
  match o with
  | Returns _ w => w
  | Raises _ w => w
  end.

Definition lookup_after {A} (o : outcome A) (p : path) : option node :=
  fs (after o) !! p.

(** The (category, extension) pairs of a table in iteration order. *)
Definition table_pairs (categories : list (string * list string))
  : list (string * string) :=
  categories ≫= (fun '(category, extensions) =>
                   (fun ext => (category, ext)) <$> extensions).

(** One step of the classifier: [ext_map[ext.lower()] = category]. *)
Definition insert_pair (m : gmap string string) (ce : string * string)
  : gmap string string :=
  <[lower ce.2 := ce.1]> m.

(** [now - lastSeen >= debounceWindow] for an entry of [pending]. *)
Definition stabilized (h : DownloadHandler) (now : Z) (kv : path * Z) : Prop :=
  (debounce h <= now - kv.2)%Z.

#[global] Instance stabilized_dec h now kv : Decision (stabilized h now kv).
Proof. unfold stabilized. apply _. Defined.

(** The name tried for a counter: [f"{stem}_{counter}{ext}"]. *)
Definition candidate (dest_folder : path) (stem ext : string) (counter : nat)
  : path :=
  dest_folder // (stem +:+ "_" +:+ pretty counter +:+ ext).

(** The move pipeline

    [move_file] and the body of the loop of [reorganize_all] run the same
    steps up to [shutil.move]; [transfer] names them for the proofs. *)

Definition transfer (folder : path) (m : gmap string string) (p : path)
  : M (path * string) :=
  let ext := lower (PurePath.suffix p) in
  let category := default "Other" (m !! ext) in
  let dest_folder := folder // category in
  mkdir_exist_ok dest_folder ;;
  let dest_path := dest_folder // PurePath.name p in
  let* collides := path_exists dest_path in
  let* dest_path :=
    (if collides then probe_loop dest_folder (PurePath.stem p) ext dest_path 1
     else ret dest_path) in
  shutil_move p dest_path ;;
  ret (dest_path, category).

(** The file system once [dest_folder.mkdir(exist_ok=True)] has returned. *)
Definition with_folder (f : gmap path node) (d : path) : gmap path node :=
  match f !! d with
  | None => <[d := Dir]> f
  | Some _ => f
  end.

(** [mkdir] succeeds on [d]: it is a directory already, or it is free and
    its parent is a directory. *)
Definition folder_ready (f : gmap path node) (d : path) : Prop :=
  f !! d = Some Dir \/ (f !! d = None /\ f !! PurePath.parent d = Some Dir).

(** [dst] is the name the pipeline settles on for a file called [nm]. *)
Definition first_free (f : gmap path node) (dest_folder : path)
  (nm stem ext : string) (dst : path) : Prop :=
  f !! dst = None /\
  ((f !! (dest_folder // nm) = None /\ dst = dest_folder // nm) \/
   (is_Some (f !! (dest_folder // nm)) /\
    exists k, (1 <= k)%nat /\ dst = candidate dest_folder stem ext k /\
      forall j, (1 <= j < k)%nat ->
        is_Some (f !! candidate dest_folder stem ext j))).

(** The destination the pipeline settles on, as a function of the file
    system at the time of the probe. *)
Definition choose_dest (f : gmap path node) (dest_folder : path)
  (nm stem ext : string) : option path :=
  if occupied f (dest_folder // nm)
  then probe (S (size f)) f dest_folder stem ext (dest_folder // nm) 1
  else Some (dest_folder // nm).

(** A creation event the handler tracks: a file, directly inside the
    watched folder, whose name does not start with a dot. *)
Definition accepted (watch : path) (event : Event) : Prop :=
  is_directory event = false /\
  PurePath.parent (src_path event) = watch /\
  startswith_dot (PurePath.name (src_path event)) = false.

(** The call is a tick that finds [p] stabilized and removes it. *)
Definition removes (h : DownloadHandler) (c : call) (p : path) : Prop :=
  match c with
  | Tick now w =>
      (exists last, (p, last) ∈ pending h /\ stabilized h now (p, last)) /\
      (exists h' w', process_pending h now w = Returns h' w')
  | _ => False
  end.

(** No call of [cs], run from [h], removes [p]. *)
Fixpoint kept (h : DownloadHandler) (cs : list call) (p : path) : Prop :=
  match cs with
  | [] => True
  | c :: cs' => ~ removes h c p /\ kept (engine_step h c) cs' p
  end.

(** The call refreshes the time stamp of [p]: a modification event of the
    file [p]. *)
Definition refreshes (p : path) (c : call) : bool :=
  match c with
  | RecordModified event _ =>
      negb (is_directory event) && bool_decide (src_path event = p)
  | _ => false
  end.

Definition is_created (c : call) : bool :=
  match c with
  | RecordCreated _ _ => true
  | _ => false
  end.

(** Consecutive refreshes of [p] are less than [d] apart, [last] being the
    refresh before the calls [cs]. *)
Fixpoint refreshed_within (d : Z) (p : path) (last : Z) (cs : list call)
  : Prop :=
  match cs with
  | [] => True
  | c :: cs' =>
      if refreshes p c
      then (call_time c - last < d)%Z /\ refreshed_within d p (call_time c) cs'
      else refreshed_within d p last cs'
  end.

(** The clock does not run backwards: the readings from [t] on. *)
Fixpoint clock_monotone (t : Z) (cs : list call) : Prop :=
  match cs with
  | [] => True
  | c :: cs' => (t <= call_time c)%Z /\ clock_monotone (call_time c) cs'
  end.

(** The refreshes continue: a refresh of [p] follows every tick. *)
Fixpoint refresh_follows_ticks (p : path) (cs : list call) : Prop :=
  match cs with
  | [] => True
  | c :: cs' =>
      (match c with
       | Tick _ _ => Exists (fun c' => refreshes p c' = true) cs'
       | _ => True
       end) /\ refresh_follows_ticks p cs'
  end.

(** The entries the sweep moves: neither a directory nor hidden. *)
Definition eligible (f : gmap path node) (p : path) : bool :=
  negb (bool_decide (f !! p = Some Dir) || startswith_dot (PurePath.name p)).

(** No regular file sits where the category folder of [p] has to be. *)
Definition category_free (f : gmap path node) (watch : path)
  (m : gmap string string) (p : path) : Prop :=
  forall data, f !! (watch // category_of m p) <> Some (File data).

(** ** Scenarios used by the examples *)

Module Scenario.

Definition downloads : path := ["D"].

Definition handler (pd : list (path * Z)) : DownloadHandler :=
  mkHandler downloads (build_extension_map [("Images", [".jpg"])]) 2 true pd.

Definition world (f : gmap path node) : World := mkWorld f [] [] None.

(** An empty watched folder. *)
Definition empty_folder : gmap path node :=
  <[downloads := Dir]> (<[[] := Dir]> ∅).

(** A file appears in the watched folder. *)
Definition arrives (p : path) (data : string) (w : World) : World :=
  set_fs (<[p := File data]> (fs w)) w.

(** A first [a.txt] is moved, then a second [a.txt] arrives. *)
Definition second_a_txt : World :=
  arrives ["D"; "a.txt"] "second"
    (after (move_file (handler []) ["D"; "a.txt"]
              (arrives ["D"; "a.txt"] "first" (world empty_folder)))).

(** [Other/Report.PDF] and [Other/README] are taken and files of the same
    names have arrived. *)
Definition upper_case_ext : gmap path node :=
  <[["D"; "Report.PDF"] := File "new report"]>
    (<[["D"; "README"] := File "new readme"]>
       (<[["D"; "Other"; "Report.PDF"] := File "old report"]>
          (<[["D"; "Other"; "README"] := File "old readme"]>
             (<[["D"; "Other"] := Dir]> empty_folder)))).

(** A regular file named like the fallback category, and a second file. *)
Definition file_named_other : gmap path node :=
  <[["D"; "Other"] := File "x"]>
    (<[["D"; "b.txt"] := File "y"]> empty_folder).

(** Two watched files, the first quiet since 0, the second since 4. *)
Definition two_files : gmap path node :=
  <[["D"; "a.txt"] := File "a"]> (<[["D"; "b.txt"] := File "b"]> empty_folder).

Definition two_pending : DownloadHandler :=
  handler [(["D"; "a.txt"], 0%Z); (["D"; "b.txt"], 4%Z)].

(** Both entries past the window, the first naming the regular file
    [Other]. *)
Definition blocked_pending : DownloadHandler :=
  handler [(["D"; "Other"], 0%Z); (["D"; "b.txt"], 0%Z)].

(** A stabilized entry whose file is gone. *)
Definition vanished_pending : DownloadHandler :=
  handler [(["D"; "gone.txt"], 0%Z)].

(** [a.txt] is pending since 0 and is written to at 1, 2 and 3, with a
    tick after the first and after the second write. *)
Definition still_downloading : list call :=
  let modified := RecordModified (mkEvent false ["D"; "a.txt"]) in
  [modified 1%Z; Tick 2%Z (world two_files); modified 2%Z;
   Tick 3%Z (world two_files); modified 3%Z].

(** Two files, a hidden file and a folder in the watched folder. *)
Definition mixed_folder : gmap path node :=
  <[["D"; "photo.jpg"] := File "pixels"]>
    (<[["D"; "notes.txt"] := File "text"]>
       (<[["D"; ".hidden"] := File "secret"]>
          (<[["D"; "sub"; "inner.txt"] := File "inner"]>
             (<[["D"; "sub"] := Dir]> empty_folder)))).

Definition boop : Boop := mkBoop [("Images", [".jpg"])] downloads true.

End Scenario.


(** * The shell around the engine *)

(** [get_platform()], as a function of what [platform.system()] returns. *)
Definition get_platform (system : string) : string :=
  let system := lower system in
  if bool_decide (system = "darwin") then "macos"
  else if bool_decide (system = "windows") then "windows"
  else "linux".

Section FileManager.

(** [str(path)], which depends on the flavour of paths of the platform. *)
Variable str : path -> string.

(** [open_in_file_manager(path)]: the command handed to [subprocess.run]. *)
Definition open_in_file_manager (system : string) (p : path) : list string :=
  let system := get_platform system in
  if bool_decide (system = "macos") then ["open"; "-R"; str p]
  else if bool_decide (system = "windows") then ["explorer"; "/select,"; str p]
  else ["xdg-open"; str (PurePath.parent p)].

(** [Boop.open_last_file()]: the command it launches, if any.  A [Path] is
    always true, so [self.last_file and ...] tests for [None]. *)
Definition open_last_file (system : string) (w : World)
  : option (list string) :=
  match last_file w with
  | Some p =>
      if occupied (fs w) p then Some (open_in_file_manager system p) else None
  | None => None
  end.

End FileManager.

(** The name shown in the menu by [on_file_moved]:
    [path.name if len(path.name) <= 30 else path.name[:27] + "..."]
    (lengths and slices count bytes, as everywhere in this model). *)
Definition shown_name (p : path) : string :=
  if (String.length (PurePath.name p) <=? 30)%nat
  then PurePath.name p
  else str_take 27 (PurePath.name p) +:+ "...".

(** The call records an event of the file [p] at the time [t]. *)
Definition stamps (p : path) (t : Z) (c : call) : Prop :=
  match c with
  | RecordCreated event now | RecordModified event now =>
      is_directory event = false /\ src_path event = p /\ now = t
  | Tick _ _ => False
  end.

(** The entries of [items] that are handed to processing before [p] is
    cannot take [p] away: none of those whose quiet time has reached the
    window names a folder above [p].  Paths that lie directly inside one
    folder are pairwise so. *)
Definition unshadowed (h : DownloadHandler) (now : Z)
  (items : list (path * Z)) (p : path) : Prop :=
  forall q last,
    (q, last) ∈ items -> stabilized h now (q, last) -> q `prefix_of` p -> q = p.

(** The invocations of the callback that go with a list of moves. *)
Definition callbacks_of (h : DownloadHandler) (ms : list (path * path))
  : list (path * string) :=
  if on_file_moved h
  then (fun sd : path * path => (sd.2, category_of (ext_map h) sd.1)) <$> ms
  else [].

(** ** [move_file] with a callback that may raise

    [move_file] with the callable [self.on_file_moved] as a parameter: any
    computation on the world, which may change it and may raise.
    [move_file] is the instance at [notify], the callback that records its
    invocation and returns. *)
Definition move_file_calling (callback : path -> string -> M unit)
  (h : DownloadHandler) (p : path) : M move_result :=
  let ext := lower (PurePath.suffix p) in
  let category := default "Other" (ext_map h !! ext) in
  let dest_folder := watch_folder h // category in
  mkdir_exist_ok dest_folder ;;
  let dest_path := dest_folder // PurePath.name p in
  let* collides := path_exists dest_path in
  let* dest_path :=
    (if collides then probe_loop dest_folder (PurePath.stem p) ext dest_path 1
     else ret dest_path) in
  shutil_move p dest_path ;;
  (if on_file_moved h then callback dest_path category else ret tt) ;;
  ret NoValue.

(** A callback that fails once the file is in place, as one that looks for
    the file where it was would. *)
Definition failing_callback (dest : path) (category : string) : M unit :=
  fun w => Raises FileNotFoundError w.
(** * Properties *)

(** Closed decidable facts about the scenarios are settled by evaluation. *)
Ltac by_evaluation :=
  match goal with
  | |- ?P =>
      let d := constr:(_ : Decision P) in
      apply (@bool_decide_unpack P d); vm_compute; exact I
  end.

(** ** Paths and strings *)

Section Paths.

Implicit Types (d p : path) (s : string).

Lemma parent_join d s : PurePath.parent (d // s) = d.
Proof. apply removelast_last. Qed.

Lemma name_join d s : PurePath.name (d // s) = s.
Proof. apply List.last_last. Qed.

Lemma join_inj d1 d2 s1 s2 : d1 // s1 = d2 // s2 -> d1 = d2 /\ s1 = s2.
Proof. intros H. apply app_inj_tail in H. exact H. Qed.

Lemma length_join d s : length (d // s) = S (length d).
Proof. unfold PurePath.join. rewrite length_app. simpl. lia. Qed.

Lemma join_not_nil d s : d // s <> [].
Proof. intros H. apply (f_equal length) in H. rewrite length_join in H. discriminate. Qed.

Lemma child_inv d p : is_child d p = true -> p = d // PurePath.name p.
Proof.
  unfold is_child. intros H. apply bool_decide_eq_true in H as [Hne <-].
  unfold PurePath.join, PurePath.parent, PurePath.name.
  apply app_removelast_last. exact Hne.
Qed.

Lemma child_join d s : is_child d (d // s) = true.
Proof.
  apply bool_decide_eq_true. split; [apply join_not_nil | apply parent_join].
Qed.

Lemma string_length_app s1 s2 :
  String.length (s1 +:+ s2) = (String.length s1 + String.length s2)%nat.
Proof. induction s1 as [|c s1 IH]; simpl; [done | by rewrite IH]. Qed.

Lemma string_app_inj_r s a b : a +:+ s = b +:+ s -> a = b.
Proof.
  revert b. induction a as [|c a IH]; intros [|c' b] H.
  - done.
  - apply (f_equal String.length) in H.
    rewrite !string_length_app in H. cbn in H. lia.
  - apply (f_equal String.length) in H.
    rewrite !string_length_app in H. cbn in H. lia.
  - cbn in H. injection H as -> H. f_equal. by apply IH.
Qed.

End Paths.

(** ** Collision probing *)

Section Probe.

Variables (f : gmap path node) (dest_folder : path) (stem ext : string).

Abbreviation cand := (candidate dest_folder stem ext).

Lemma candidate_inj j k : cand j = cand k -> j = k.
Proof.
  unfold candidate. intros H. apply join_inj in H as [_ H].
  do 2 apply String.app_inj in H.
  apply string_app_inj_r in H. by apply (inj pretty) in H.
Qed.

Lemma probe_sound fuel d c r :
  probe fuel f dest_folder stem ext d c = Some r ->
  occupied f r = false /\
  ((r = d) \/
   (occupied f d = true /\
    exists k, (c <= k)%nat /\ r = cand k /\
      forall j, (c <= j < k)%nat -> occupied f (cand j) = true)).
Proof.
  revert d c. induction fuel as [|fuel IH]; intros d c; simpl.
  - destruct (occupied f d) eqn:Hd; [done|]. intros [= <-]. auto.
  - destruct (occupied f d) eqn:Hd; [|intros [= <-]; auto].
    intros H. apply IH in H as [Hr [->|[Hc (k & Hk & -> & Hall)]]].
    + split; [done|]. right. split; [done|]. exists c.
      split; [lia|]. split; [done|]. intros j Hj. lia.
    + split; [done|]. right. split; [done|]. exists k.
      split; [lia|]. split; [done|]. intros j Hj.
      destruct (decide (j = c)) as [->|Hne]; [done|]. apply Hall. lia.
Qed.

Lemma probe_out_of_fuel fuel d c :
  probe fuel f dest_folder stem ext d c = None ->
  occupied f d = true /\
  forall j, (c <= j < c + fuel)%nat -> occupied f (cand j) = true.
Proof.
  revert d c. induction fuel as [|fuel IH]; intros d c; simpl.
  - destruct (occupied f d) eqn:Hd; [|done]. intros _. split; [done|]. lia.
  - destruct (occupied f d) eqn:Hd; [|done].
    intros H. apply IH in H as [Hc Hall]. split; [done|].
    intros j Hj. destruct (decide (j = c)) as [->|Hne]; [done|].
    apply Hall. lia.
Qed.

(** The loop ends: the names tried are pairwise different, so at most as
    many of them are occupied as the file system has entries. *)
Lemma probe_enough_fuel d c :
  is_Some (probe (S (size f)) f dest_folder stem ext d c).
Proof.
  destruct (probe _ _ _ _ _ _ _) as [r|] eqn:H; [by eexists|].
  exfalso. apply probe_out_of_fuel in H as [_ Hall].
  set (l := cand <$> seq c (S (size f))).
  assert (NoDup l) as Hnd.
  { apply NoDup_fmap_2; [|apply NoDup_seq]. intros j k. apply candidate_inj. }
  assert (l ⊆+ (map_to_list f).*1) as Hsub.
  { apply NoDup_submseteq; [done|]. intros p Hp.
    apply list_elem_of_fmap in Hp as (j & -> & Hj).
    apply elem_of_seq in Hj. specialize (Hall j Hj).
    apply bool_decide_eq_true in Hall as [n Hn].
    apply list_elem_of_fmap. exists (cand j, n). split; [done|].
    by apply elem_of_map_to_list. }
  apply submseteq_length in Hsub. unfold l in Hsub.
  rewrite !length_fmap, length_seq in Hsub.
  rewrite length_map_to_list in Hsub. lia.
Qed.

End Probe.

Lemma move_file_transfer h p w :
  move_file h p w =
  match transfer (watch_folder h) (ext_map h) p w with
  | Returns (d, c) w' =>
      Returns NoValue
        (if on_file_moved h
         then mkWorld (fs w') (moves w') (notified w' ++ [(d, c)]) (last_file w')
         else w')
  | Raises e w' => Raises e w'
  end.
Proof.
  unfold move_file, transfer, bind, ret, notify.
  repeat (case_match; simplify_eq; try done).
Qed.

Lemma occupied_true f p : occupied f p = true <-> is_Some (f !! p).
Proof. apply bool_decide_eq_true. Qed.

Lemma occupied_false f p : occupied f p = false <-> f !! p = None.
Proof.
  unfold occupied. rewrite bool_decide_eq_false. symmetry. apply eq_None_not_Some.
Qed.

Lemma mkdir_ready d w :
  folder_ready (fs w) d ->
  mkdir_exist_ok d w = Returns tt (set_fs (with_folder (fs w) d) w).
Proof.
  unfold mkdir_exist_ok, with_folder. intros [H|[H1 H2]].
  - rewrite H. by destruct w.
  - by rewrite H1, H2.
Qed.

Lemma with_folder_dir f d : folder_ready f d -> with_folder f d !! d = Some Dir.
Proof.
  unfold with_folder. intros [H|[H1 H2]].
  - by rewrite H.
  - rewrite H1. apply lookup_insert_eq.
Qed.

Lemma with_folder_keeps f d q n :
  f !! q = Some n -> with_folder f d !! q = Some n.
Proof.
  unfold with_folder. intros Hq. destruct (f !! d) eqn:Hd; [done|].
  rewrite lookup_insert_ne; [done|]. intros ->. congruence.
Qed.

Lemma with_folder_other f d q : q <> d -> with_folder f d !! q = f !! q.
Proof.
  unfold with_folder. intros Hne. destruct (f !! d); [done|].
  by rewrite lookup_insert_ne.
Qed.

Lemma choose_dest_first_free f dest_folder nm stem ext :
  exists dst,
    choose_dest f dest_folder nm stem ext = Some dst /\
    first_free f dest_folder nm stem ext dst.
Proof.
  unfold choose_dest.
  destruct (occupied f (dest_folder // nm)) eqn:Hocc.
  - destruct (probe_enough_fuel f dest_folder stem ext (dest_folder // nm) 1)
      as [dst Hdst].
    exists dst. split; [done|].
    apply probe_sound in Hdst as [Hfree [->|[_ (k & Hk & -> & Hall)]]].
    + congruence.
    + split; [by apply occupied_false|]. right.
      split; [by apply occupied_true|].
      exists k. split; [done|]. split; [done|].
      intros j Hj. apply occupied_true. by apply Hall.
  - apply occupied_false in Hocc. eexists. split; [done|].
    split; [done|]. by left.
Qed.

Lemma shutil_move_file src dst data w :
  fs w !! src = Some (File data) ->
  fs w !! dst = None ->
  fs w !! PurePath.parent dst = Some Dir ->
  shutil_move src dst w =
    Returns dst (mkWorld (<[dst := File data]> (delete src (fs w)))
                         (moves w ++ [(src, dst)]) (notified w) (last_file w)).
Proof.
  intros Hsrc Hdst Hpar. unfold shutil_move, relocate.
  rewrite Hdst, (bool_decide_eq_false_2 (None = Some Dir)) by done.
  cbn [andb]. rewrite Hsrc, Hpar.
  by rewrite (bool_decide_eq_false_2 (File data = Dir)).
Qed.

Lemma transfer_unfold folder m p w :
  transfer folder m p w =
  let dest_folder := folder // category_of m p in
  match mkdir_exist_ok dest_folder w with
  | Raises e w1 => Raises e w1
  | Returns _ w1 =>
      match choose_dest (fs w1) dest_folder (PurePath.name p) (PurePath.stem p)
              (lower (PurePath.suffix p)) with
      | None => Raises OutOfFuel w1
      | Some dst =>
          match shutil_move p dst w1 with
          | Raises e w2 => Raises e w2
          | Returns _ w2 => Returns (dst, category_of m p) w2
          end
      end
  end.
Proof.
  unfold transfer, choose_dest, bind, ret, path_exists, probe_loop, category_of.
  cbn zeta. destruct (mkdir_exist_ok _ w) as [[] w1|]; [|done].
  destruct (occupied (fs w1) _); [|done].
  by destruct (probe _ _ _ _ _ _ _).
Qed.

(** The pipeline on a regular file whose category folder can be made. *)
Lemma transfer_file folder m p data w :
  fs w !! p = Some (File data) ->
  folder_ready (fs w) (folder // category_of m p) ->
  let dest_folder := folder // category_of m p in
  let f1 := with_folder (fs w) dest_folder in
  exists dst,
    transfer folder m p w =
      Returns (dst, category_of m p)
        (mkWorld (<[dst := File data]> (delete p f1))
                 (moves w ++ [(p, dst)]) (notified w) (last_file w)) /\
    first_free f1 dest_folder (PurePath.name p) (PurePath.stem p)
      (lower (PurePath.suffix p)) dst.
Proof.
  intros Hp Hready dest_folder f1.
  assert (f1 !! p = Some (File data)) as Hp1 by by apply with_folder_keeps.
  assert (f1 !! dest_folder = Some Dir) as Hdir by by apply with_folder_dir.
  destruct (choose_dest_first_free f1 dest_folder (PurePath.name p)
              (PurePath.stem p) (lower (PurePath.suffix p)))
    as (dst & Hch & Hfree).
  exists dst. split; [|done].
  rewrite transfer_unfold. cbn zeta.
  rewrite (mkdir_ready _ _ Hready). fold dest_folder. fold f1.
  cbn [fs set_fs]. rewrite Hch.
  assert (PurePath.parent dst = dest_folder) as Hpar.
  { destruct Hfree as [_ [[_ ->]|[_ (k & _ & -> & _)]]]; apply parent_join. }
  rewrite (shutil_move_file p dst data); cbn [fs set_fs]; try done.
  - by destruct Hfree.
  - by rewrite Hpar.
Qed.

(** The bound on the probing loop is never reached: no operation of the
    model raises [OutOfFuel]. *)
Lemma transfer_fuel folder m p w w' :
  transfer folder m p w <> Raises OutOfFuel w'.
Proof.
  rewrite transfer_unfold. cbn zeta.
  destruct (mkdir_exist_ok _ w) as [[] w1|e w1] eqn:Hmk.
  - destruct (choose_dest_first_free (fs w1) (folder // category_of m p)
                (PurePath.name p) (PurePath.stem p) (lower (PurePath.suffix p)))
      as (dst & -> & _).
    unfold shutil_move. cbn zeta.
    destruct (_ && occupied _ _); [done|].
    destruct (fs w1 !! p) as [n|]; [|done].
    destruct (_ && _); [done|].
    by destruct (fs w1 !! PurePath.parent _) as [[]|].
  - unfold mkdir_exist_ok in Hmk.
    destruct (fs w !! _) as [[]|]; [congruence| |];
      [done | destruct (fs w !! PurePath.parent _) as [[]|]; congruence].
Qed.

Lemma move_file_fuel h p w w' : move_file h p w <> Raises OutOfFuel w'.
Proof.
  rewrite move_file_transfer.
  pose proof (transfer_fuel (watch_folder h) (ext_map h) p w) as H.
  destruct (transfer _ _ _ w) as [[d c] w1|e w1]; [done|].
  intros [= -> ->]. by apply (H w').
Qed.

(** [move_file] on a regular file whose category folder can be made: the
    whole effect on the world. *)
Lemma move_file_file h p data w :
  fs w !! p = Some (File data) ->
  folder_ready (fs w) (watch_folder h // category_of (ext_map h) p) ->
  let category := category_of (ext_map h) p in
  let dest_folder := watch_folder h // category in
  let f1 := with_folder (fs w) dest_folder in
  exists dst,
    first_free f1 dest_folder (PurePath.name p) (PurePath.stem p)
      (lower (PurePath.suffix p)) dst /\
    move_file h p w =
      Returns NoValue
        (mkWorld (<[dst := File data]> (delete p f1))
                 (moves w ++ [(p, dst)])
                 (notified w ++ (if on_file_moved h then [(dst, category)] else []))
                 (last_file w)).
Proof.
  intros Hp Hready category dest_folder f1.
  destruct (transfer_file (watch_folder h) (ext_map h) p data w Hp Hready)
    as (dst & Hrun & Hfree).
  exists dst. split; [done|].
  rewrite move_file_transfer, Hrun. cbn [fs moves notified last_file].
  destruct (on_file_moved h); [done|]. by rewrite app_nil_r.
Qed.

Lemma moved_file_lookups (f : gmap path node) p dst data :
  f !! p = Some (File data) -> f !! dst = None ->
  let f' := <[dst := File data]> (delete p f) in
  f' !! dst = Some (File data) /\ f' !! p = None /\
  forall q n, q <> p -> f !! q = Some n -> f' !! q = Some n.
Proof.
  intros Hp Hdst f'. assert (p <> dst) as Hne by (intros ->; congruence).
  split; [apply lookup_insert_eq|]. split.
  - unfold f'. rewrite lookup_insert_ne by done. apply lookup_delete_eq.
  - intros q n Hq Hn. unfold f'.
    rewrite lookup_insert_ne by (intros ->; congruence).
    by rewrite lookup_delete_ne.
Qed.


(** ** Collision-safe naming *)

Lemma string_app_nil_r s : s +:+ "" = s.
Proof.
  induction s as [|c s IH]; [done|].
  change (String c (s +:+ "") = String c s). by rewrite IH.
Qed.

Lemma join_longer d s : d // s <> d.
Proof. intros H. apply (f_equal length) in H. rewrite length_join in H. lia. Qed.

(** The colliding move: the counter that is chosen, the names that were
    found occupied before it, and the file system afterwards. *)
Lemma move_file_collision h p data w :
  let dest_folder := watch_folder h // category_of (ext_map h) p in
  let name_for := candidate dest_folder (PurePath.stem p)
                    (lower (PurePath.suffix p)) in
  fs w !! p = Some (File data) ->
  fs w !! dest_folder = Some Dir ->
  is_Some (fs w !! (dest_folder // PurePath.name p)) ->
  exists k w',
    (1 <= k)%nat /\
    move_file h p w = Returns NoValue w' /\
    (forall j, (1 <= j < k)%nat -> is_Some (fs w !! name_for j)) /\
    fs w !! name_for k = None /\
    moves w' = moves w ++ [(p, name_for k)] /\
    fs w' !! name_for k = Some (File data) /\
    fs w' !! p = None /\
    forall q n, q <> p -> fs w !! q = Some n -> fs w' !! q = Some n.
Proof.
  intros dest_folder name_for Hp Hdir Hocc.
  destruct (move_file_file h p data w Hp) as (dst & Hfree & Hrun).
  { by left. }
  fold dest_folder in Hfree, Hrun.
  assert (with_folder (fs w) dest_folder = fs w) as Hf1.
  { unfold with_folder. by rewrite Hdir. }
  rewrite Hf1 in Hfree, Hrun.
  destruct Hfree as [Hnone [[Hfree _]|[_ (k & Hk & -> & Hall)]]].
  { destruct Hocc as [? Hocc]. congruence. }
  eexists k, _. split; [done|]. split; [exact Hrun|].
  cbn [fs moves]. split; [done|]. split; [done|]. split; [done|].
  by apply moved_file_lookups.
Qed.

(** The move that meets no collision keeps the base name. *)
Lemma move_file_no_collision h p data w :
  let category := category_of (ext_map h) p in
  let dest_folder := watch_folder h // category in
  fs w !! p = Some (File data) ->
  folder_ready (fs w) dest_folder ->
  fs w !! (dest_folder // PurePath.name p) = None ->
  exists w',
    move_file h p w = Returns NoValue w' /\
    moves w' = moves w ++ [(p, dest_folder // PurePath.name p)] /\
    fs w' !! (dest_folder // PurePath.name p) = Some (File data).
Proof.
  intros category dest_folder Hp Hready Hfree0.
  destruct (move_file_file h p data w Hp Hready) as (dst & Hfree & Hrun).
  fold category dest_folder in Hfree, Hrun.
  assert (with_folder (fs w) dest_folder !! (dest_folder // PurePath.name p) = None)
    as Hnone.
  { rewrite with_folder_other; [done | apply join_longer]. }
  destruct Hfree as [_ [[_ ->]|[[? Hocc] _]]]; [|congruence].
  eexists. split; [exact Hrun|]. cbn [fs moves]. split; [done|].
  apply lookup_insert_eq.
Qed.

(** C2: when the initial destination [watchTarget/category/baseName] is
    occupied, [move_file] tries [stem_1.ext], [stem_2.ext], ... from 1
    upward and moves the file to the first name that is free: every
    earlier candidate is occupied, the chosen one is not, the file arrives
    there and no entry that was present is overwritten.  In particular a
    second [a.txt], moved when the first one already sits at
    [Other/a.txt], ends at [Other/a_1.txt] and both files are present. *)
Theorem move_file_probes_from_one :
  (forall h p data w,
     let dest_folder := watch_folder h // category_of (ext_map h) p in
     let name_for := candidate dest_folder (PurePath.stem p)
                       (lower (PurePath.suffix p)) in
     fs w !! p = Some (File data) ->
     fs w !! dest_folder = Some Dir ->
     is_Some (fs w !! (dest_folder // PurePath.name p)) ->
     exists k w',
       (1 <= k)%nat /\
       move_file h p w = Returns NoValue w' /\
       (forall j, (1 <= j < k)%nat -> is_Some (fs w !! name_for j)) /\
       fs w !! name_for k = None /\
       moves w' = moves w ++ [(p, name_for k)] /\
       fs w' !! name_for k = Some (File data) /\
       fs w' !! p = None /\
       forall q n, q <> p -> fs w !! q = Some n -> fs w' !! q = Some n) /\
  (let o := move_file (Scenario.handler []) ["D"; "a.txt"] Scenario.second_a_txt in
   fs Scenario.second_a_txt !! ["D"; "Other"; "a.txt"] = Some (File "first") /\
   lookup_after o ["D"; "Other"; "a.txt"] = Some (File "first") /\
   lookup_after o ["D"; "Other"; "a_1.txt"] = Some (File "second") /\
   lookup_after o ["D"; "a.txt"] = None).
Proof.
  split.
  - apply move_file_collision.
  - vm_compute. done.
Qed.
(** The probing theorem at the second [a.txt] of the scenario. *)
Lemma move_file_probes_from_one_witness :
  exists k w',
    (1 <= k)%nat /\
    move_file (Scenario.handler []) ["D"; "a.txt"] Scenario.second_a_txt
      = Returns NoValue w' /\
    fs w' !! candidate ["D"; "Other"] "a" ".txt" k = Some (File "second").
Proof.
  destruct (proj1 move_file_probes_from_one (Scenario.handler [])
              ["D"; "a.txt"] "second" Scenario.second_a_txt)
    as (k & w' & Hk & Hrun & _ & _ & _ & Hdst & _).
  - vm_compute. reflexivity.
  - vm_compute. reflexivity.
  - vm_compute. eexists. reflexivity.
  - exists k, w'. split; [exact Hk|]. split; [exact Hrun|]. exact Hdst.
Defined.

(** C10: when probing is triggered, every name tried is the stem, an
    underscore, the counter and the lower-cased extension, so a colliding
    [Report.PDF] is stored as [Report_1.pdf]; a name without extension is
    tried as [stem_1], [stem_2], ... with no trailing dot; a move that
    meets no collision keeps the base name as it is.  The sweep of
    [reorganize_all] names its files the same way. *)
Theorem collision_names_lower_the_extension :
  (forall h p data w,
     let dest_folder := watch_folder h // category_of (ext_map h) p in
     let name_for := fun n : nat =>
       dest_folder //
         (PurePath.stem p +:+ "_" +:+ pretty n +:+ lower (PurePath.suffix p)) in
     fs w !! p = Some (File data) ->
     fs w !! dest_folder = Some Dir ->
     is_Some (fs w !! (dest_folder // PurePath.name p)) ->
     exists k w',
       (1 <= k)%nat /\
       move_file h p w = Returns NoValue w' /\
       (forall j, (1 <= j < k)%nat -> is_Some (fs w !! name_for j)) /\
       moves w' = moves w ++ [(p, name_for k)] /\
       fs w' !! name_for k = Some (File data) /\
       (PurePath.split_index (PurePath.name p) = None ->
        name_for k = dest_folder // (PurePath.name p +:+ "_" +:+ pretty k))) /\
  (forall h p data w,
     let dest_folder := watch_folder h // category_of (ext_map h) p in
     fs w !! p = Some (File data) ->
     folder_ready (fs w) dest_folder ->
     fs w !! (dest_folder // PurePath.name p) = None ->
     exists w',
       move_file h p w = Returns NoValue w' /\
       moves w' = moves w ++ [(p, dest_folder // PurePath.name p)]) /\
  (let o := (move_file (Scenario.handler []) ["D"; "Report.PDF"] ;;
             move_file (Scenario.handler []) ["D"; "README"])
              (Scenario.world Scenario.upper_case_ext) in
   moves (after o) =
     [(["D"; "Report.PDF"], ["D"; "Other"; "Report_1.pdf"]);
      (["D"; "README"], ["D"; "Other"; "README_1"])] /\
   lookup_after o ["D"; "Other"; "Report.PDF"] = Some (File "old report") /\
   lookup_after o ["D"; "Other"; "Report_1.pdf"] = Some (File "new report") /\
   lookup_after o ["D"; "Other"; "README_1"] = Some (File "new readme")) /\
  (let o := reorganize_all (mkBoop [] Scenario.downloads true)
              (Scenario.world Scenario.upper_case_ext) in
   lookup_after o ["D"; "Other"; "Report_1.pdf"] = Some (File "new report") /\
   lookup_after o ["D"; "Other"; "README_1"] = Some (File "new readme")).
Proof.
  split; [|split; [|split]].
  - intros h p data w dest_folder name_for Hp Hdir Hocc.
    destruct (move_file_collision h p data w Hp Hdir Hocc)
      as (k & w' & Hk & Hrun & Hall & _ & Hmoves & Hdst & _).
    exists k, w'. repeat (split; [done|]).
    intros Hsplit. unfold name_for, PurePath.stem, PurePath.suffix.
    rewrite Hsplit. cbn [lower]. by rewrite string_app_nil_r.
  - intros h p data w dest_folder Hp Hready Hfree.
    destruct (move_file_no_collision h p data w Hp Hready Hfree)
      as (w' & Hrun & Hmoves & _).
    by exists w'.
  - vm_compute. done.
  - vm_compute. done.
Qed.

(** The naming theorem at the [Report.PDF] of the scenario. *)
Lemma collision_names_lower_the_extension_witness :
  exists k w',
    (1 <= k)%nat /\
    move_file (Scenario.handler []) ["D"; "Report.PDF"]
      (Scenario.world Scenario.upper_case_ext) = Returns NoValue w' /\
    fs w' !! (["D"; "Other"] // ("Report" +:+ "_" +:+ pretty k +:+ ".pdf"))
      = Some (File "new report").
Proof.
  destruct (proj1 collision_names_lower_the_extension (Scenario.handler [])
              ["D"; "Report.PDF"] "new report"
              (Scenario.world Scenario.upper_case_ext))
    as (k & w' & Hk & Hrun & _ & _ & Hdst & _).
  - vm_compute. reflexivity.
  - vm_compute. reflexivity.
  - vm_compute. eexists. reflexivity.
  - exists k, w'. split; [exact Hk|]. split; [exact Hrun|]. exact Hdst.
Defined.

(** ** What [move_file] selects, announces and returns *)

(** C5 as the code has it: for a regular file whose category folder can be
    made, [move_file] takes the category from the lower-cased extension
    with ["Other"] as the fallback, moves the file into
    [watchTarget/category], calls the callback with the destination and the
    category when one is registered, and evaluates to [None]. *)
Theorem move_file_selects_moves_notifies :
  forall h p data w,
    let category := default "Other" (ext_map h !! lower (PurePath.suffix p)) in
    let dest_folder := watch_folder h // category in
    fs w !! p = Some (File data) ->
    folder_ready (fs w) dest_folder ->
    exists dst w',
      move_file h p w = Returns NoValue w' /\
      PurePath.parent dst = dest_folder /\
      moves w' = moves w ++ [(p, dst)] /\
      fs w' !! dst = Some (File data) /\
      notified w' =
        notified w ++ (if on_file_moved h then [(dst, category)] else []).
Proof.
  intros h p data w category dest_folder Hp Hready.
  destruct (move_file_file h p data w Hp Hready) as (dst & Hfree & Hrun).
  exists dst. eexists. split; [exact Hrun|]. cbn [fs moves notified].
  split.
  { destruct Hfree as [_ [[_ ->]|[_ (k & _ & -> & _)]]]; apply parent_join. }
  split; [done|]. split; [apply lookup_insert_eq | done].
Qed.

(** The theorem at a photo that arrives in an empty watched folder. *)
Lemma move_file_selects_moves_notifies_witness :
  exists dst w',
    move_file (Scenario.handler []) ["D"; "photo.jpg"]
      (Scenario.arrives ["D"; "photo.jpg"] "pixels"
         (Scenario.world Scenario.empty_folder)) = Returns NoValue w' /\
    PurePath.parent dst = ["D"; "Images"] /\
    notified w' = [(dst, "Images")].
Proof.
  destruct (move_file_selects_moves_notifies (Scenario.handler [])
              ["D"; "photo.jpg"] "pixels"
              (Scenario.arrives ["D"; "photo.jpg"] "pixels"
                 (Scenario.world Scenario.empty_folder)))
    as (dst & w' & Hrun & Hpar & _ & _ & Hcb).
  - vm_compute. reflexivity.
  - right. split; vm_compute; reflexivity.
  - exists dst, w'. split; [exact Hrun|]. split; [exact Hpar|]. exact Hcb.
Defined.

(** C5 as the specification states it fails: the call does not evaluate to
    the pair of the destination and the category. *)
Lemma move_file_returns_no_pair :
  let w := Scenario.arrives ["D"; "photo.jpg"] "pixels"
             (Scenario.world Scenario.empty_folder) in
  let o := move_file (Scenario.handler []) ["D"; "photo.jpg"] w in
  o = Returns NoValue (after o) /\
  moves (after o) = [(["D"; "photo.jpg"], ["D"; "Images"; "photo.jpg"])] /\
  notified (after o) = [(["D"; "Images"; "photo.jpg"], "Images")] /\
  forall dest category w', o <> Returns (DestAndCategory dest category) w'.
Proof.
  vm_compute. split; [done|]. split; [done|]. split; [done|].
  intros dest category w' H. discriminate H.
Qed.

(** ** Extension classifier *)

Lemma build_extension_map_pairs_from (m : gmap string string) cats :
  foldl (fun ext_map '(category, extensions) =>
           foldl (fun ext_map ext => <[lower ext := category]> ext_map)
                 ext_map extensions) m cats
  = foldl insert_pair m (table_pairs cats).
Proof.
  revert m. induction cats as [|[c exts] cats IH]; intros m; [done|].
  cbn [foldl]. rewrite IH. unfold table_pairs. cbn [mbind list_bind].
  rewrite foldl_app. f_equal.
  clear IH. revert m. induction exts as [|e exts IH]; intros m; [done|].
  cbn. apply IH.
Qed.

Lemma foldl_insert_pair_lookup (l : list (string * string)) m e :
  foldl insert_pair m l !! e =
  match last (filter (fun ce => lower ce.2 = e) l) with
  | Some ce => Some ce.1
  | None => m !! e
  end.
Proof.
  induction l as [|ce l IH] using rev_ind; [done|].
  rewrite foldl_app, filter_app, last_app. cbn [foldl].
  rewrite filter_cons, filter_nil. unfold insert_pair at 1.
  destruct (decide (lower ce.2 = e)) as [<-|Hne]; cbn [last].
  - by rewrite lookup_insert_eq.
  - by rewrite lookup_insert_ne.
Qed.

(** C8: [build_index] inserts, pair by pair in iteration order, the
    lower-cased extension mapped to its category, a later pair overwriting
    an earlier one, so that an extension maps to the last category that
    lists it; an extension that no category lists is absent; the empty table
    gives the empty index.  The function is total: nothing in it can
    raise. *)
Theorem build_extension_map_last_write_wins :
  (forall cats,
     build_extension_map cats = foldl insert_pair ∅ (table_pairs cats)) /\
  (forall cats e,
     build_extension_map cats !! e =
       fst <$> last (filter (fun ce => lower ce.2 = e) (table_pairs cats))) /\
  build_extension_map [] = ∅ /\
  build_extension_map [("Images", [".JPG"; ".png"]); ("Docs", [".jpg"])]
    !! ".jpg" = Some "Docs".
Proof.
  split; [|split; [|split]].
  - intros cats. apply build_extension_map_pairs_from.
  - intros cats e. unfold build_extension_map.
    rewrite build_extension_map_pairs_from, foldl_insert_pair_lookup.
    by destruct (last _).
  - done.
  - vm_compute. done.
Qed.

(** ** Events *)

(** C9: an event whose is-directory flag is set is ignored by
    [record_created] and by [record_modified], wherever its path lies and
    whatever its name: the handler, and with it the pending set and every
    time stamp in it, stays as it was. *)
Theorem directory_events_are_ignored :
  forall h p now,
    on_created h (mkEvent true p) now = h /\
    on_modified h (mkEvent true p) now = h /\
    pending (on_created h (mkEvent true (watch_folder h // "folder")) now)
      = pending h.
Proof. intros h p now. by repeat split. Qed.

(** ** The pending set as a dict *)

Section Dict.

Implicit Types (d : list (path * Z)) (k p : path).

Lemma filter_ext_in {A} (P Q : A -> Prop) `{!forall x, Decision (P x)}
  `{!forall x, Decision (Q x)} (l : list A) :
  (forall x, x ∈ l -> P x <-> Q x) -> filter P l = filter Q l.
Proof.
  induction l as [|x l IH]; intros Hext; [done|].
  rewrite !filter_cons.
  assert (filter P l = filter Q l) as ->.
  { apply IH. intros y Hy. apply Hext. by right. }
  assert (P x <-> Q x) as Hx by (apply Hext; by left).
  destruct (decide (P x)) as [HP|HP], (decide (Q x)) as [HQ|HQ];
    try done; tauto.
Qed.

Lemma foldl_dict_pop (l : list path) d :
  foldl (fun d p => dict_pop p d) d l = filter (fun kv => kv.1 ∉ l) d.
Proof.
  revert d. induction l as [|p l IH]; intros d; cbn [foldl].
  - symmetry. induction d as [|kv d IHd]; [done|].
    rewrite filter_cons_True; [by f_equal | apply not_elem_of_nil].
  - rewrite IH. unfold dict_pop. rewrite list_filter_filter.
    apply list_filter_iff. intros kv. rewrite not_elem_of_cons. tauto.
Qed.

Lemma dict_unique d k v1 v2 :
  NoDup d.*1 -> (k, v1) ∈ d -> (k, v2) ∈ d -> v1 = v2.
Proof.
  induction d as [|[k' v'] d IH]; intros Hnd H1 H2.
  - by apply elem_of_nil in H1.
  - cbn in Hnd. apply NoDup_cons in Hnd as [Hnotin Hnd].
    apply elem_of_cons in H1 as [H1|H1], H2 as [H2|H2].
    + congruence.
    + injection H1 as -> ->. exfalso. apply Hnotin.
      apply list_elem_of_fmap. by exists (k', v2).
    + injection H2 as -> ->. exfalso. apply Hnotin.
      apply list_elem_of_fmap. by exists (k', v1).
    + by apply IH.
Qed.

Lemma dict_pop_selected (P : path * Z -> Prop) `{!forall x, Decision (P x)} d :
  NoDup d.*1 ->
  filter (fun kv => kv.1 ∉ (filter P d).*1) d = filter (fun kv => ~ P kv) d.
Proof.
  intros Hnd. apply filter_ext_in. intros [k v] Hin. cbn. split.
  - intros Hnot HP. apply Hnot. apply list_elem_of_fmap.
    exists (k, v). split; [done|]. by apply list_elem_of_filter.
  - intros HnP Hk. apply list_elem_of_fmap in Hk as ([k' v'] & Hkk & Hin').
    cbn in Hkk. subst k'. apply list_elem_of_filter in Hin' as [HP Hin'].
    by rewrite (dict_unique d k v v' Hnd Hin Hin') in HnP.
Qed.

End Dict.

(** ** The loop of [process_pending] *)

Section Tick.

Variables (h : DownloadHandler) (now : Z).

Lemma mkdir_effects d w :
  moves (after (mkdir_exist_ok d w)) = moves w /\
  notified (after (mkdir_exist_ok d w)) = notified w.
Proof. unfold mkdir_exist_ok. by repeat case_match. Qed.

Lemma shutil_move_effects src dst w :
  match shutil_move src dst w with
  | Returns d' w' =>
      moves w' = moves w ++ [(src, d')] /\ notified w' = notified w
  | Raises _ w' => w' = w
  end.
Proof.
  unfold shutil_move. cbn zeta.
  destruct (_ && occupied _ _); [done|].
  destruct (fs w !! src) as [n|]; [|done].
  destruct (_ && _); [done|].
  by destruct (fs w !! PurePath.parent _) as [[]|].
Qed.

Lemma transfer_effects folder m p w :
  match transfer folder m p w with
  | Returns _ w' =>
      (exists d', moves w' = moves w ++ [(p, d')]) /\ notified w' = notified w
  | Raises _ w' => moves w' = moves w /\ notified w' = notified w
  end.
Proof.
  rewrite transfer_unfold. cbn zeta.
  pose proof (mkdir_effects (folder // category_of m p) w) as [Hm Hn].
  destruct (mkdir_exist_ok _ w) as [[] w1|e w1]; cbn [after] in Hm, Hn; [|done].
  destruct (choose_dest _ _ _ _ _) as [dst|]; [|done].
  pose proof (shutil_move_effects p dst w1) as Hs.
  destruct (shutil_move p dst w1) as [d' w2|e w2].
  - destruct Hs as [Hm2 Hn2]. rewrite Hm2, Hn2, Hm, Hn. eauto.
  - by subst w2.
Qed.

Lemma move_file_effects p w :
  let w' := after (move_file h p w) in
  moves w' = moves w \/ exists d', moves w' = moves w ++ [(p, d')].
Proof.
  cbn zeta. rewrite move_file_transfer.
  pose proof (transfer_effects (watch_folder h) (ext_map h) p w) as H.
  destruct (transfer _ _ _ w) as [[d c] w'|e w']; cbn [after].
  - destruct H as [[d' H] _]. right. exists d'.
    by destruct (on_file_moved h).
  - left. by destruct H.
Qed.

(** What the loop has collected when it ends normally. *)
Lemma pending_loop_collects items to_remove w r w' :
  pending_loop h now items to_remove w = Returns r w' ->
  r = to_remove ++ (filter (stabilized h now) items).*1.
Proof.
  revert to_remove w. induction items as [|[p last] items IH]; intros acc w.
  - cbn. intros [= <- <-]. by rewrite app_nil_r.
  - cbn [pending_loop]. rewrite filter_cons.
    destruct (Z.ltb_spec (now - last) (debounce h)) as [Hlt|Hge].
    + rewrite decide_False by (unfold stabilized; cbn; lia). apply IH.
    + rewrite decide_True by (unfold stabilized; cbn; lia).
      rewrite fmap_cons. cbn [fst].
      unfold bind, path_exists.
      destruct (negb (occupied (fs w) p)).
      * intros H. apply IH in H. by rewrite <- app_assoc in H.
      * destruct (move_file h p w) as [? w1|]; [|done].
        intros H. apply IH in H. by rewrite <- app_assoc in H.
Qed.

(** Whatever the outcome, only stabilized entries are handed to the move. *)
Lemma pending_loop_moves items to_remove w sd :
  sd ∈ moves (after (pending_loop h now items to_remove w)) ->
  sd ∈ moves w \/
  exists last, (sd.1, last) ∈ items /\ stabilized h now (sd.1, last).
Proof.
  revert to_remove w. induction items as [|[p last] items IH]; intros acc w.
  - cbn. auto.
  - cbn [pending_loop].
    assert (forall acc' w1,
      sd ∈ moves (after (pending_loop h now items acc' w1)) ->
      sd ∈ moves w1 \/
      exists last0, (sd.1, last0) ∈ (p, last) :: items /\
                    stabilized h now (sd.1, last0)) as IH'.
    { intros acc' w1 H. apply IH in H as [H|(l0 & Hin & Hst)]; [by left|].
      right. exists l0. split; [by right | done]. }
    destruct (Z.ltb_spec (now - last) (debounce h)) as [Hlt|Hge]; [apply IH'|].
    unfold bind, path_exists.
    destruct (negb (occupied (fs w) p)); [apply IH'|].
    pose proof (move_file_effects p w) as Hmv. cbn zeta in Hmv.
    assert (sd ∈ moves (after (move_file h p w)) ->
            sd ∈ moves w \/
            exists last0, (sd.1, last0) ∈ (p, last) :: items /\
                          stabilized h now (sd.1, last0)) as Hstep.
    { intros Hin. destruct Hmv as [Hmv|[d' Hmv]]; rewrite Hmv in Hin;
        [by left|].
      apply elem_of_app in Hin as [Hin|Hin]; [by left|].
      apply list_elem_of_singleton in Hin as ->. right. exists last.
      split; [by left|]. unfold stabilized. cbn. lia. }
    destruct (move_file h p w) as [? w1|e w1]; cbn [after] in *.
    + intros H. apply IH' in H as [H|H]; [by apply Hstep | by right].
    + apply Hstep.
Qed.

Lemma pending_loop_fuel items to_remove w w' :
  pending_loop h now items to_remove w <> Raises OutOfFuel w'.
Proof.
  revert to_remove w. induction items as [|[p last] items IH]; intros acc w.
  - done.
  - cbn [pending_loop]. destruct (_ <? _)%Z; [apply IH|].
    unfold bind, path_exists. destruct (negb _); [apply IH|].
    pose proof (move_file_fuel h p w w') as Hmv.
    destruct (move_file h p w) as [? w1|e w1]; [apply IH|].
    intros [= -> ->]. done.
Qed.

Lemma process_pending_fuel w w' :
  process_pending h now w <> Raises OutOfFuel w'.
Proof.
  unfold process_pending, bind, ret.
  pose proof (pending_loop_fuel (pending h) [] w w') as Hloop.
  destruct (pending_loop h now (pending h) [] w) as [r w1|e w1]; [done|].
  intros [= -> ->]. done.
Qed.

End Tick.

Section DictSet.

Implicit Types (d : list (path * Z)) (k p : path).

Lemma dict_mem_true k d : dict_mem k d = true <-> k ∈ d.*1.
Proof. apply bool_decide_eq_true. Qed.

Lemma dict_mem_false k d : dict_mem k d = false <-> k ∉ d.*1.
Proof. apply bool_decide_eq_false. Qed.

Lemma dict_set_keys k v d :
  (dict_set k v d).*1 = if dict_mem k d then d.*1 else d.*1 ++ [k].
Proof.
  unfold dict_set. destruct (dict_mem k d).
  - rewrite <- list_fmap_compose. apply list_fmap_ext.
    intros i [k' v'] _. cbn. by case_bool_decide.
  - by rewrite fmap_app.
Qed.

Lemma dict_set_NoDup k v d : NoDup d.*1 -> NoDup (dict_set k v d).*1.
Proof.
  intros Hnd. rewrite dict_set_keys.
  destruct (dict_mem k d) eqn:Hmem; [done|].
  apply dict_mem_false in Hmem. apply NoDup_app. split; [done|].
  split; [|apply NoDup_singleton].
  intros x Hx Hx'. apply list_elem_of_singleton in Hx' as ->. done.
Qed.

Lemma elem_of_dict_set k v d k' v' :
  (k', v') ∈ dict_set k v d <->
  (k' = k /\ v' = v /\ True) \/ (k' <> k /\ (k', v') ∈ d).
Proof.
  unfold dict_set. destruct (dict_mem k d) eqn:Hmem.
  - apply dict_mem_true in Hmem. rewrite list_elem_of_fmap. split.
    + intros ([k0 v0] & Heq & Hin). cbn in Heq. case_bool_decide.
      * left. by injection Heq as -> ->.
      * right. by injection Heq as -> ->.
    + intros [(-> & -> & _)|[Hne Hin]].
      * apply list_elem_of_fmap in Hmem as ([k0 v0] & -> & Hin).
        exists (k0, v0). cbn. by rewrite bool_decide_eq_true_2.
      * exists (k', v'). cbn. by rewrite bool_decide_eq_false_2.
  - apply dict_mem_false in Hmem. rewrite elem_of_app, list_elem_of_singleton.
    split.
    + intros [Hin|[= -> ->]]; [|by left]. right. split; [|done].
      intros ->. apply Hmem. apply list_elem_of_fmap. by exists (k, v').
    + intros [(-> & -> & _)|[_ Hin]]; [by right | by left].
Qed.

Lemma dict_pop_NoDup (l : list path) d :
  NoDup d.*1 -> NoDup (filter (fun kv : path * Z => kv.1 ∉ l) d).*1.
Proof.
  induction d as [|[k v] d IH]; intros Hnd; [done|].
  rewrite fmap_cons in Hnd. cbn [fst] in Hnd.
  apply NoDup_cons in Hnd as [Hk Hnd]. rewrite filter_cons.
  destruct (decide _); [|by apply IH]. rewrite fmap_cons. cbn [fst].
  apply NoDup_cons.
  split; [|by apply IH]. intros Hin. apply Hk.
  apply list_elem_of_fmap in Hin as ([k0 v0] & -> & Hin).
  apply list_elem_of_filter in Hin as [_ Hin].
  apply list_elem_of_fmap. by exists (k0, v0).
Qed.

End DictSet.

(** [process_pending] that returns has removed the stabilized entries and
    kept the others, order and time stamps included. *)
Lemma process_pending_returns h now w h' w' :
  NoDup (pending h).*1 ->
  process_pending h now w = Returns h' w' ->
  h' = set_pending (filter (fun kv => ~ stabilized h now kv) (pending h)) h.
Proof.
  intros Hnd. unfold process_pending, bind, ret.
  destruct (pending_loop h now (pending h) [] w) as [r w1|] eqn:Hloop; [|done].
  intros [= <- <-]. apply pending_loop_collects in Hloop. cbn in Hloop.
  subst r. by rewrite foldl_dict_pop, dict_pop_selected.
Qed.

Lemma process_pending_moves h now w sd :
  sd ∈ moves (after (process_pending h now w)) ->
  sd ∈ moves w \/
  exists last, (sd.1, last) ∈ pending h /\ stabilized h now (sd.1, last).
Proof.
  intros H. apply (pending_loop_moves h now (pending h) [] w).
  unfold process_pending, bind, ret in H.
  by destruct (pending_loop h now (pending h) [] w).
Qed.

Lemma tick_world h now w : (tick h now w).1.2 = after (process_pending h now w).
Proof. unfold tick. by destruct (process_pending h now w). Qed.

(** An entry inside its window survives the tick and is not moved by it. *)
Lemma tick_spares_unstabilized h now w p last h' w' e :
  NoDup (pending h).*1 ->
  (p, last) ∈ pending h ->
  (now - last < debounce h)%Z ->
  tick h now w = (h', w', e) ->
  (p, last) ∈ pending h' /\
  forall dst, (p, dst) ∈ moves w' -> (p, dst) ∈ moves w.
Proof.
  intros Hnd Hin Hlt Htick. split.
  - unfold tick in Htick.
    destruct (process_pending h now w) as [h1 w1|e1 w1] eqn:Hpp.
    + injection Htick as <- <- <-.
      apply process_pending_returns in Hpp; [|done]. subst h1. cbn.
      apply list_elem_of_filter. split; [|done]. unfold stabilized. cbn. lia.
    + by injection Htick as <- <- <-.
  - intros dst Hmv.
    assert (w' = after (process_pending h now w)) as ->.
    { rewrite <- tick_world. by rewrite Htick. }
    apply process_pending_moves in Hmv as [Hmv|(last' & Hin' & Hst)]; [done|].
    cbn in Hin', Hst. rewrite (dict_unique _ _ _ _ Hnd Hin Hin') in Hlt.
    unfold stabilized in Hst. cbn in Hst. lia.
Qed.

Lemma on_created_tracks h ev t0 :
  is_directory ev = false ->
  PurePath.parent (src_path ev) = watch_folder h ->
  startswith_dot (PurePath.name (src_path ev)) = false ->
  on_created h ev t0 = set_pending (dict_set (src_path ev) t0 (pending h)) h.
Proof.
  intros Hdir Hpar Hdot. unfold on_created. rewrite Hdir, Hdot.
  by rewrite bool_decide_eq_false_2 by (intros H; by apply H).
Qed.

(** ** Removal from the pending set *)

(** C3 as the code has it.  A tick that returns has removed every entry
    whose quiet time has reached the window and no other; an entry that is
    due and whose file is gone is marked for removal and passed over with
    no move, no callback and no error; when a move raises, the error
    leaves the tick and the pending set is as it was. *)
Theorem tick_removes_stabilized_when_it_returns :
  forall h now w,
    NoDup (pending h).*1 ->
    (forall h' w',
       process_pending h now w = Returns h' w' ->
       pending h' = filter (fun kv => ~ stabilized h now kv) (pending h)) /\
    (forall p last rest to_remove,
       stabilized h now (p, last) -> fs w !! p = None ->
       pending_loop h now ((p, last) :: rest) to_remove w
         = pending_loop h now rest (to_remove ++ [p]) w) /\
    ((forall p last, (p, last) ∈ pending h -> stabilized h now (p, last) ->
                     fs w !! p = None) ->
     tick h now w =
       (set_pending (filter (fun kv => ~ stabilized h now kv) (pending h)) h,
        w, None)) /\
    (forall e w',
       process_pending h now w = Raises e w' ->
       tick h now w = (h, w', Some e)).
Proof.
  intros h now w Hnd.
  assert (forall p last rest to_remove w0,
    stabilized h now (p, last) -> fs w0 !! p = None ->
    pending_loop h now ((p, last) :: rest) to_remove w0
      = pending_loop h now rest (to_remove ++ [p]) w0) as Hskip.
  { intros p last rest acc w0 Hst Hgone. cbn [pending_loop].
    unfold stabilized in Hst. cbn in Hst.
    destruct (Z.ltb_spec (now - last) (debounce h)) as [Hlt|_]; [lia|].
    unfold bind, path_exists.
    apply occupied_false in Hgone. by rewrite Hgone. }
  split; [|split; [|split]].
  - intros h' w' Hpp. by rewrite (process_pending_returns h now w h' w').
  - intros p last rest acc. apply Hskip.
  - intros Hgone.
    assert (forall items acc,
      (forall p last, (p, last) ∈ items -> stabilized h now (p, last) ->
                      fs w !! p = None) ->
      exists r, pending_loop h now items acc w = Returns r w) as Hloop.
    { induction items as [|[p last] items IH]; intros acc Hall.
      - by eexists.
      - assert (forall p0 last0, (p0, last0) ∈ items ->
                  stabilized h now (p0, last0) -> fs w !! p0 = None) as Hall'.
        { intros p0 last0 Hin. apply Hall. by right. }
        destruct (decide (stabilized h now (p, last))) as [Hst|Hst].
        + rewrite Hskip; [by apply IH | done |]. apply (Hall p last); [by left|done].
        + cbn [pending_loop]. unfold stabilized in Hst. cbn in Hst.
          destruct (Z.ltb_spec (now - last) (debounce h)) as [_|Hge]; [|lia].
          by apply IH. }
    destruct (Hloop (pending h) [] Hgone) as [r Hr].
    assert (process_pending h now w =
            Returns (set_pending (foldl (fun d p => dict_pop p d) (pending h) r) h) w)
      as Hpp.
    { unfold process_pending, bind, ret. by rewrite Hr. }
    unfold tick. rewrite Hpp.
    by rewrite <- (process_pending_returns h now w _ w Hnd Hpp).
  - intros e w' Hpp. unfold tick. by rewrite Hpp.
Qed.

(** The theorem at a single entry that is due and whose file is gone. *)
Lemma tick_removes_stabilized_when_it_returns_witness :
  tick Scenario.vanished_pending 5 (Scenario.world Scenario.empty_folder)
  = (Scenario.handler [], Scenario.world Scenario.empty_folder, None).
Proof.
  assert (NoDup (pending Scenario.vanished_pending).*1) as Hnd.
  { by_evaluation. }
  destruct (tick_removes_stabilized_when_it_returns Scenario.vanished_pending 5
              (Scenario.world Scenario.empty_folder) Hnd) as (_ & _ & Hgone & _).
  rewrite Hgone.
  - vm_compute. reflexivity.
  - intros p last Hin _. apply list_elem_of_singleton in Hin.
    injection Hin as -> ->. vm_compute. reflexivity.
Defined.

(** C3 as the specification states it fails: the entry is due, its move
    raises, and the entry is still pending after the tick. *)
Lemma tick_keeps_entry_when_move_raises :
  let h := Scenario.handler [(["D"; "Other"], 0%Z)] in
  let w := Scenario.world Scenario.file_named_other in
  stabilized h 5 (["D"; "Other"], 0%Z) /\
  move_file h ["D"; "Other"] w = Raises FileExistsError w /\
  tick h 5 w = (h, w, Some FileExistsError) /\
  (["D"; "Other"], 0%Z) ∈ pending (tick h 5 w).1.1.
Proof.
  split; [|split; [|split]].
  - vm_compute. discriminate.
  - vm_compute. reflexivity.
  - vm_compute. reflexivity.
  - by_evaluation.
Qed.

(** ** The pending set along a run of the engine *)

Section Engine.

Implicit Types (h : DownloadHandler) (c : call) (cs : list call) (p : path).

Abbreviation keys h := ((pending h).*1).

Lemma on_created_ignores h ev now :
  ~ accepted (watch_folder h) ev -> on_created h ev now = h.
Proof.
  unfold accepted, on_created. intros Hna.
  destruct (is_directory ev); [done|].
  case_bool_decide as Hpar; [done|].
  destruct (startswith_dot _) eqn:Hdot; [done|].
  exfalso. apply Hna. repeat split; try done; by apply dec_stable.
Qed.

Lemma on_modified_keys h ev now : keys (on_modified h ev now) = keys h.
Proof.
  unfold on_modified. destruct (is_directory ev); [done|].
  destruct (dict_mem _ _) eqn:Hmem; [|done]. cbn.
  by rewrite dict_set_keys, Hmem.
Qed.

Lemma process_pending_config h now w h' w' :
  process_pending h now w = Returns h' w' ->
  exists pd, h' = set_pending pd h.
Proof.
  unfold process_pending, bind, ret.
  destruct (pending_loop _ _ _ _ _); [|done]. intros [= <- <-]. by eexists.
Qed.

Lemma step_config h c :
  watch_folder (engine_step h c) = watch_folder h /\
  debounce (engine_step h c) = debounce h.
Proof.
  destruct c as [ev now|ev now|now w]; cbn.
  - unfold on_created. by repeat case_match.
  - unfold on_modified. by repeat case_match.
  - unfold tick. destruct (process_pending h now w) as [h' w'|] eqn:Hpp; [|done].
    apply process_pending_config in Hpp as [pd ->]. done.
Qed.

Lemma step_NoDup h c : NoDup (keys h) -> NoDup (keys (engine_step h c)).
Proof.
  intros Hnd. destruct c as [ev now|ev now|now w]; cbn.
  - destruct (decide (accepted (watch_folder h) ev)) as [(?&?&?)|Hna].
    + rewrite on_created_tracks by done. by apply dict_set_NoDup.
    + by rewrite on_created_ignores.
  - by rewrite on_modified_keys.
  - unfold tick. destruct (process_pending h now w) as [h' w'|] eqn:Hpp; [|done].
    apply process_pending_returns in Hpp as ->; [|done]. cbn.
    apply NoDup_fmap_fst.
    + intros k v1 v2 H1 H2. apply list_elem_of_filter in H1 as [_ H1], H2 as [_ H2].
      by apply (dict_unique (pending h) k).
    + apply NoDup_filter. by apply NoDup_fmap_1 in Hnd.
Qed.

Lemma run_NoDup h cs : NoDup (keys h) -> NoDup (keys (run h cs)).
Proof.
  revert h. induction cs as [|c cs IH]; intros h Hnd; [done|].
  cbn. apply IH. by apply step_NoDup.
Qed.

Lemma elem_of_keys p (d : list (path * Z)) :
  p ∈ d.*1 <-> exists last, (p, last) ∈ d.
Proof.
  rewrite list_elem_of_fmap. split.
  - intros ([k v] & -> & Hin). by exists v.
  - intros [v Hin]. by exists (p, v).
Qed.

(** One call: the paths pending after it are those pending before that the
    call does not remove, and the path of an accepted creation event. *)
Lemma step_keys h c p :
  NoDup (keys h) ->
  p ∈ keys (engine_step h c) <->
  (p ∈ keys h /\ ~ removes h c p) \/
  (exists ev now, c = RecordCreated ev now /\
                  accepted (watch_folder h) ev /\ src_path ev = p).
Proof.
  intros Hnd. destruct c as [ev now|ev now|now w]; cbn [engine_step removes].
  - destruct (decide (accepted (watch_folder h) ev)) as [Hacc|Hna].
    + destruct Hacc as (Hd & Hp & Hdot).
      rewrite on_created_tracks by done. cbn [pending set_pending].
      rewrite dict_set_keys.
      destruct (dict_mem (src_path ev) (pending h)) eqn:Hmem.
      * apply dict_mem_true in Hmem. split; [tauto|].
        intros [[H _]|(ev' & now' & [= <- <-] & _ & <-)]; done.
      * rewrite elem_of_app, list_elem_of_singleton. split.
        -- intros [H| ->]; [tauto|]. right. by exists ev, now.
        -- intros [[H _]|(ev' & now' & [= <- <-] & _ & <-)]; tauto.
    + rewrite on_created_ignores by done. split; [tauto|].
      intros [[H _]|(ev' & now' & [= <- <-] & Hacc & _)]; done.
  - rewrite on_modified_keys. split; [tauto|].
    intros [[H _]|(ev' & now' & [=] & _)]; done.
  - unfold tick.
    destruct (process_pending h now w) as [h' w'|e w'] eqn:Hpp; cbn [fst].
    + apply process_pending_returns in Hpp as Hh'; [|done]. subst h'.
      cbn [pending set_pending]. rewrite !elem_of_keys. split.
      * intros [last Hin]. apply list_elem_of_filter in Hin as [Hns Hin].
        left. split; [by exists last|].
        intros [(last' & Hin' & Hst) _].
        by rewrite (dict_unique _ _ _ _ Hnd Hin Hin') in Hns.
      * intros [[[last Hin] Hnr]|(ev' & now' & [=] & _)].
        exists last. apply list_elem_of_filter. split; [|done].
        intros Hst. apply Hnr. split; [by exists last | by eexists _, _].
    + split; [|intros [[H _]|(ev' & now' & [=] & _)]; done].
      intros H. left. split; [done|]. by intros [_ (h' & w0 & [=])].
Qed.

Lemma run_keys h cs p :
  NoDup (keys h) ->
  p ∈ keys (run h cs) <->
  (p ∈ keys h /\ kept h cs p) \/
  (exists cs1 ev now cs2,
     cs = cs1 ++ RecordCreated ev now :: cs2 /\
     accepted (watch_folder h) ev /\ src_path ev = p /\
     kept (run h (cs1 ++ [RecordCreated ev now])) cs2 p).
Proof.
  revert h. induction cs as [|c cs IH]; intros h Hnd.
  - cbn. split; [tauto|].
    intros [[H _]|(cs1 & ev & now & cs2 & Heq & _)]; [done|].
    by destruct cs1.
  - change (run h (c :: cs)) with (run (engine_step h c) cs).
    rewrite IH by by apply step_NoDup.
    rewrite step_keys by done.
    destruct (step_config h c) as [Hwf _]. rewrite Hwf. cbn [kept]. split.
    + intros [[[[Hin Hnr]|(ev & now & -> & Hacc & Hsrc)] Hk]|
              (cs1 & ev & now & cs2 & -> & Hacc & Hsrc & Hk)].
      * left. tauto.
      * right. by exists [], ev, now, cs.
      * right. by exists (c :: cs1), ev, now, cs2.
    + intros [(Hin & Hnr & Hk)|(cs1 & ev & now & cs2 & Heq & Hacc & Hsrc & Hk)].
      * left. tauto.
      * destruct cs1 as [|c' cs1]; cbn in Heq; injection Heq as -> ->.
        -- left. split; [|done]. right. by exists ev, now.
        -- right. by exists cs1, ev, now, cs2.
Qed.

End Engine.

(** C4: in every state the engine reaches from its construction, a path is
    pending if and only if a creation event of a file was recorded for it
    with the watched folder as its parent and a name that does not start
    with a dot, and no later tick that found it stabilized has removed it.
    [record_created] ignores every other event; [record_modified] leaves
    the set of pending paths as it is, does nothing for a path that is not
    pending, and changes the time stamp of no other path. *)
Theorem pending_is_created_and_not_removed :
  (forall watch m d callback cs p,
     let h0 := new_handler watch m d callback in
     p ∈ (pending (run h0 cs)).*1 <->
     exists cs1 ev now cs2,
       cs = cs1 ++ RecordCreated ev now :: cs2 /\
       accepted watch ev /\ src_path ev = p /\
       kept (run h0 (cs1 ++ [RecordCreated ev now])) cs2 p) /\
  (forall h ev now,
     ~ accepted (watch_folder h) ev -> on_created h ev now = h) /\
  (forall h ev now,
     (pending (on_modified h ev now)).*1 = (pending h).*1 /\
     (src_path ev ∉ (pending h).*1 -> on_modified h ev now = h) /\
     (forall k v, (k, v) ∈ pending (on_modified h ev now) ->
                  k <> src_path ev -> (k, v) ∈ pending h)).
Proof.
  split; [|split].
  - intros watch m d callback cs p h0.
    rewrite (run_keys h0 cs p) by (cbn; constructor). split.
    + intros [[Hin _]|H]; [|done]. cbn in Hin. by apply elem_of_nil in Hin.
    + intros H. by right.
  - apply on_created_ignores.
  - intros h ev now. split; [apply on_modified_keys|]. split.
    + intros Hnot. unfold on_modified. destruct (is_directory ev); [done|].
      apply dict_mem_false in Hnot. by rewrite Hnot.
    + intros k v Hin Hne. unfold on_modified in Hin.
      destruct (is_directory ev); [done|].
      destruct (dict_mem _ _); [|done]. cbn in Hin.
      apply elem_of_dict_set in Hin as [(-> & _)|[_ Hin]]; done.
Qed.

(** ** Refreshes hold a file back *)

Section Refresh.

Variable p : path.

Lemma first_refresh_bound d last t cs :
  clock_monotone t cs ->
  refreshed_within d p last cs ->
  Exists (fun c => refreshes p c = true) cs ->
  exists r, (t <= r)%Z /\ (r - last < d)%Z.
Proof.
  revert t. induction cs as [|c cs IH]; intros t Hmono Hgap Hex.
  - by apply Exists_nil in Hex.
  - cbn in Hmono, Hgap. destruct Hmono as [Ht Hmono].
    destruct (refreshes p c) eqn:Hr.
    + exists (call_time c). by destruct Hgap.
    + apply Exists_cons in Hex as [Hex|Hex]; [congruence|].
      destruct (IH _ Hmono Hgap Hex) as (r & Hr1 & Hr2).
      exists r. split; [lia | done].
Qed.

(** One call of the interleaving: the entry of [p] survives it, with the
    time stamp of the call when the call is a refresh. *)
Lemma step_keeps_refreshed h c cs last t :
  NoDup (pending h).*1 ->
  (p, last) ∈ pending h ->
  is_created c = false ->
  clock_monotone t (c :: cs) ->
  refreshed_within (debounce h) p last (c :: cs) ->
  refresh_follows_ticks p (c :: cs) ->
  (p, if refreshes p c then call_time c else last) ∈ pending (engine_step h c) /\
  (forall now w, c = Tick now w -> (now - last < debounce h)%Z).
Proof.
  intros Hnd Hin Hnc Hmono Hgap Hfollow.
  destruct c as [ev now|ev now|now w]; [done| |].
  - split; [|done]. cbn [engine_step refreshes call_time]. unfold on_modified.
    destruct (is_directory ev); [done|]. cbn [negb andb].
    case_bool_decide as Hp.
    + subst p. assert (dict_mem (src_path ev) (pending h) = true) as ->.
      { apply dict_mem_true, elem_of_keys. by exists last. }
      cbn. apply elem_of_dict_set. by left.
    + destruct (dict_mem _ _); [|done]. cbn.
      apply elem_of_dict_set. right. split; [congruence | done].
  - cbn in Hmono, Hgap, Hfollow.
    destruct Hmono as [_ Hmono]. destruct Hfollow as [Hex _].
    destruct (first_refresh_bound _ _ _ _ Hmono Hgap Hex) as (r & Hr1 & Hr2).
    assert (now - last < debounce h)%Z as Hlt by lia.
    split; [|by intros ? ? [= <- <-]].
    cbn [engine_step refreshes].
    destruct (tick h now w) as [[h' w'] e] eqn:Htick. cbn.
    by apply (tick_spares_unstabilized h now w p last h' w' e).
Qed.

Lemma refreshed_file_is_spared h cs last t cs1 now w cs2 :
  NoDup (pending h).*1 ->
  (p, last) ∈ pending h ->
  Forall (fun c => is_created c = false) cs ->
  clock_monotone t cs ->
  refreshed_within (debounce h) p last cs ->
  refresh_follows_ticks p cs ->
  cs = cs1 ++ Tick now w :: cs2 ->
  exists last', (p, last') ∈ pending (run h cs1) /\
                NoDup (pending (run h cs1)).*1 /\
                debounce (run h cs1) = debounce h /\
                (now - last' < debounce h)%Z.
Proof.
  revert h cs last t. induction cs1 as [|c cs1 IH];
    intros h cs last t Hnd Hin Hnc Hmono Hgap Hfollow ->.
  - exists last. cbn [run foldl]. do 3 (split; [done|]).
    destruct (step_keeps_refreshed h (Tick now w) cs2 last t
                Hnd Hin eq_refl Hmono Hgap Hfollow) as [_ Hlt].
    by apply (Hlt now w).
  - cbn [app] in *. apply Forall_cons in Hnc as [Hc Hnc].
    destruct (step_keeps_refreshed h c _ last t Hnd Hin Hc Hmono Hgap Hfollow)
      as [Hin' _].
    destruct (step_config h c) as [_ Hdeb].
    change (run h (c :: cs1)) with (run (engine_step h c) cs1).
    rewrite <- Hdeb.
    apply (IH (engine_step h c) (cs1 ++ Tick now w :: cs2)
              (if refreshes p c then call_time c else last) (call_time c)).
    + by apply step_NoDup.
    + done.
    + done.
    + by destruct Hmono.
    + rewrite Hdeb. cbn in Hgap. destruct (refreshes p c); [by destruct Hgap | done].
    + by destruct Hfollow.
    + done.
Qed.

End Refresh.

(** C6: take a pending file, and any interleaving of [record_modified] and
    [tick] calls, made with a clock that does not run backwards, in which
    consecutive refreshes of the file are less than [debounceWindow] apart
    and a refresh follows every tick.  Then no tick of the interleaving
    moves the file, and the file is still pending after each of them. *)
Theorem refreshed_file_is_not_moved :
  forall h p t0 cs,
    NoDup (pending h).*1 ->
    (p, t0) ∈ pending h ->
    Forall (fun c => is_created c = false) cs ->
    clock_monotone t0 cs ->
    refreshed_within (debounce h) p t0 cs ->
    refresh_follows_ticks p cs ->
    forall cs1 now w cs2,
      cs = cs1 ++ Tick now w :: cs2 ->
      let hk := run h cs1 in
      p ∈ (pending (tick hk now w).1.1).*1 /\
      forall dst, (p, dst) ∈ moves (tick hk now w).1.2 -> (p, dst) ∈ moves w.
Proof.
  intros h p t0 cs Hnd Hin Hnc Hmono Hgap Hfollow cs1 now w cs2 Hcs hk.
  destruct (refreshed_file_is_spared p h cs t0 t0 cs1 now w cs2
              Hnd Hin Hnc Hmono Hgap Hfollow Hcs)
    as (last & Hin' & Hnd' & Hdeb & Hlt).
  fold hk in Hin', Hnd', Hdeb. rewrite <- Hdeb in Hlt.
  destruct (tick hk now w) as [[h' w'] e] eqn:Htick. cbn.
  destruct (tick_spares_unstabilized hk now w p last h' w' e Hnd' Hin' Hlt Htick)
    as [Hkeep Hmoves].
  split; [|done]. apply elem_of_keys. by exists last.
Qed.

(** The theorem at a download that is written to at 1, 2 and 3, for the
    tick at 3. *)
Lemma refreshed_file_is_not_moved_witness :
  ["D"; "a.txt"] ∈
    (pending (tick (run (Scenario.handler [(["D"; "a.txt"], 0%Z)])
                        (take 3 Scenario.still_downloading))
                   3 (Scenario.world Scenario.two_files)).1.1).*1.
Proof.
  refine (proj1 (refreshed_file_is_not_moved
                   (Scenario.handler [(["D"; "a.txt"], 0%Z)])
                   ["D"; "a.txt"] 0%Z
                   Scenario.still_downloading _ _ _ _ _ _
                   (take 3 Scenario.still_downloading) 3%Z
                   (Scenario.world Scenario.two_files)
                   (drop 4 Scenario.still_downloading) _)).
  - by_evaluation.
  - by_evaluation.
  - repeat constructor.
  - unfold Scenario.still_downloading. cbn. lia.
  - unfold Scenario.still_downloading, Scenario.handler. cbn.
    rewrite !bool_decide_eq_true_2 by done. lia.
  - unfold Scenario.still_downloading. cbn.
    repeat split; by_evaluation.
  - reflexivity.
Defined.

(** ** The sweep of [reorganize_all] *)

Lemma elem_of_keys_map (f : gmap path node) p :
  p ∈ (map_to_list f).*1 <-> is_Some (f !! p).
Proof.
  rewrite list_elem_of_fmap. split.
  - intros ([k n] & -> & Hin). apply elem_of_map_to_list in Hin. by exists n.
  - intros [n Hn]. exists (p, n). split; [done|]. by apply elem_of_map_to_list.
Qed.

Lemma NoDup_children (f : gmap path node) d : NoDup (children f d).
Proof. apply NoDup_filter, NoDup_fst_map_to_list. Qed.

Section Sweep.

Variables (b : Boop) (m : gmap string string).

Abbreviation watch := (boop_watch_folder b).

Lemma reorganize_loop_transfer p rest count w :
  reorganize_loop b m (p :: rest) count w =
  if eligible (fs w) p
  then
    match transfer watch m p w with
    | Returns (d, c) w' =>
        reorganize_loop b m rest (S count)
          (mkWorld (fs w') (moves w')
                   (notified w' ++ (if boop_on_file_moved b then [(d, c)] else []))
                   (Some d))
    | Raises e w' => Raises e w'
    end
  else reorganize_loop b m rest count w.
Proof.
  cbn [reorganize_loop]. unfold eligible, bind at 1, is_dir.
  destruct (bool_decide (fs w !! p = Some Dir) || startswith_dot _); [done|].
  cbn [negb]. unfold transfer, bind, ret, notify, set_last_file.
  destruct (mkdir_exist_ok _ w) as [[] w1|]; [|done].
  destruct (path_exists _ w1) as [collides w2|]; [|done].
  destruct (if collides then _ else _) as [d w3|]; [|done].
  destruct (shutil_move p d w3) as [d' w4|]; [|done].
  cbn [fs moves notified last_file].
  destruct (boop_on_file_moved b); [done|]. by rewrite app_nil_r.
Qed.

Lemma reorganize_loop_fuel entries count w w' :
  reorganize_loop b m entries count w <> Raises OutOfFuel w'.
Proof.
  revert count w. induction entries as [|p rest IH]; intros count w; [done|].
  rewrite reorganize_loop_transfer. destruct (eligible _ _); [|apply IH].
  pose proof (transfer_fuel watch m p w w') as Htr.
  destruct (transfer watch m p w) as [[d c] w1|e w1]; [apply IH|].
  intros [= -> ->]. done.
Qed.

Lemma child_length d p : is_child d p = true -> length p = S (length d).
Proof. intros H. rewrite (child_inv d p H). apply length_join. Qed.

Lemma eligible_file (f : gmap path node) p :
  eligible f p = true -> is_Some (f !! p) ->
  (exists data, f !! p = Some (File data)) /\
  startswith_dot (PurePath.name p) = false.
Proof.
  unfold eligible. intros He [n Hn].
  apply negb_true_iff, orb_false_iff in He as [Hd Hdot].
  apply bool_decide_eq_false in Hd. split; [|done].
  destruct n as [data|]; [by exists data | done].
Qed.

Lemma eligible_same (f f' : gmap path node) p :
  f' !! p = f !! p -> eligible f' p = eligible f p.
Proof. unfold eligible. by intros ->. Qed.

(** The sweep over a listing of existing entries of the watched folder,
    none of which has its category folder blocked by a regular file. *)
Lemma reorganize_loop_spec entries : forall count w,
  NoDup entries ->
  (forall p, p ∈ entries -> is_child watch p = true /\ is_Some (fs w !! p)) ->
  fs w !! watch = Some Dir ->
  (forall p, p ∈ entries -> eligible (fs w) p = true ->
             category_free (fs w) watch m p) ->
  exists w' ms,
    reorganize_loop b m entries count w =
      Returns (count + length (filter (fun p => eligible (fs w) p = true) entries))%nat w' /\
    moves w' = moves w ++ ms /\
    ms.*1 = filter (fun p => eligible (fs w) p = true) entries /\
    notified w' =
      notified w ++
        (if boop_on_file_moved b
         then (fun sd : path * path => (sd.2, category_of m sd.1)) <$> ms
         else []) /\
    (forall src dst, (src, dst) ∈ ms ->
       exists data, fs w !! src = Some (File data) /\
                    fs w' !! dst = Some (File data) /\
                    PurePath.parent dst = watch // category_of m src) /\
    (forall q n, fs w !! q = Some n ->
                 q ∉ filter (fun p => eligible (fs w) p = true) entries ->
                 fs w' !! q = Some n).
Proof.
  induction entries as [|p rest IH]; intros count w Hnd Hch Hdir Hfree.
  { exists w, []. cbn. rewrite !app_nil_r, Nat.add_0_r.
    split; [done|]. split; [done|]. split; [done|]. split.
    - destruct (boop_on_file_moved b); by rewrite app_nil_r.
    - split; [|done]. intros src dst Hin. by apply elem_of_nil in Hin. }
  apply NoDup_cons in Hnd as [Hp_rest Hnd].
  assert (forall q, q ∈ rest -> is_child watch q = true /\ is_Some (fs w !! q))
    as Hch_rest by (intros q Hq; apply Hch; by right).
  destruct (Hch p) as [Hp_child Hp_some]; [by left|].
  rewrite reorganize_loop_transfer, filter_cons.
  destruct (eligible (fs w) p) eqn:Hel.
  2:{ rewrite decide_False by done.
      apply (IH count w); try done.
      intros q Hq. apply Hfree. by right. }
  rewrite decide_True by done.
  destruct (eligible_file _ _ Hel Hp_some) as [[data Hp] Hdot].
  assert (folder_ready (fs w) (watch // category_of m p)) as Hready.
  { pose proof (Hfree p ltac:(by left) Hel) as Hcf. unfold category_free in Hcf.
    destruct (fs w !! (watch // category_of m p)) as [[data'|]|] eqn:Hc.
    - by destruct (Hcf data').
    - by left.
    - right. split; [done|]. by rewrite parent_join. }
  destruct (transfer_file watch m p data w Hp Hready) as (dst & Hrun & Hff).
  rewrite Hrun. cbn [fs moves notified].
  set (f1 := with_folder (fs w) (watch // category_of m p)) in *.
  set (w1 := mkWorld _ _ _ _).
  assert (f1 !! p = Some (File data)) as Hp1 by by apply with_folder_keeps.
  assert (f1 !! dst = None) as Hdst1 by by destruct Hff.
  assert (PurePath.parent dst = watch // category_of m p) as Hpar.
  { destruct Hff as [_ [[_ ->]|[_ (k & _ & -> & _)]]]; apply parent_join. }
  assert (length dst = S (S (length watch))) as Hlen.
  { destruct Hff as [_ [[_ ->]|[_ (k & _ & -> & _)]]];
      unfold candidate; by rewrite !length_join. }
  destruct (moved_file_lookups f1 p dst data Hp1 Hdst1) as (Hdst & _ & Hkeep1).
  assert (forall q n, q <> p -> fs w !! q = Some n -> fs w1 !! q = Some n) as Hkeep.
  { intros q n Hq Hn. apply Hkeep1; [done|]. by apply with_folder_keeps. }
  assert (forall q, q ∈ rest -> fs w1 !! q = fs w !! q) as Hsame.
  { intros q Hq. destruct (Hch_rest q Hq) as [_ [n Hn]].
    rewrite Hn. apply Hkeep; [|done]. intros ->. done. }
  assert (filter (fun q => eligible (fs w1) q = true) rest
          = filter (fun q => eligible (fs w) q = true) rest) as Hfilter.
  { apply filter_ext_in. intros q Hq. by rewrite (eligible_same _ _ _ (Hsame q Hq)). }
  destruct (IH (S count) w1) as (w' & ms & Hloop & Hmoves & Hsrcs & Hnot & Hms & Huntouched).
  - done.
  - intros q Hq. destruct (Hch_rest q Hq) as [Hc Hs]. split; [done|].
    by rewrite Hsame.
  - apply Hkeep; [|done]. intros Heq. rewrite <- Heq in Hp. congruence.
  - intros q Hq Helq data' Hblock.
    rewrite (eligible_same _ _ _ (Hsame q Hq)) in Helq.
    pose proof (Hfree q ltac:(by right) Helq) as Hcf.
    set (x := watch // category_of m q) in *.
    assert (x <> dst) as Hxd.
    { intros Heq. apply (f_equal length) in Heq. unfold x in Heq.
      rewrite length_join, Hlen in Heq. lia. }
    unfold w1 in Hblock. cbn [fs] in Hblock.
    rewrite lookup_insert_ne in Hblock by done.
    destruct (decide (x = p)) as [Hxp|Hxp].
    + rewrite Hxp, lookup_delete_eq in Hblock. done.
    + rewrite lookup_delete_ne in Hblock by done.
      destruct (decide (x = watch // category_of m p)) as [Hxc|Hxc].
      * rewrite Hxc in Hblock. unfold f1 in Hblock.
        rewrite with_folder_dir in Hblock by done. done.
      * unfold f1 in Hblock. rewrite with_folder_other in Hblock by done.
        by apply (Hcf data').
  - rewrite Hfilter in Hloop, Hsrcs, Huntouched.
    exists w', ((p, dst) :: ms). split.
    { rewrite Hloop. f_equal. cbn [length]. lia. }
    split.
    { rewrite Hmoves. unfold w1. cbn [moves]. by rewrite <- app_assoc. }
    split.
    { rewrite fmap_cons. cbn [fst]. by rewrite Hsrcs. }
    split.
    { rewrite Hnot. unfold w1. cbn [notified]. rewrite <- app_assoc.
      by destruct (boop_on_file_moved b). }
    split.
    { intros src dst' Hin. apply elem_of_cons in Hin as [[= -> ->]|Hin].
      - exists data. split; [done|]. split; [|done].
        apply Huntouched; [done|].
        intros Hin. apply list_elem_of_filter in Hin as [_ Hin].
        destruct (Hch_rest _ Hin) as [Hc _]. apply child_length in Hc. lia.
      - destruct (Hms src dst' Hin) as (data' & Hsrc & Hdst' & Hpar').
        exists data'. split; [|done].
        rewrite <- Hsame; [done|].
        assert (src ∈ ms.*1) as Hsrc_in.
        { apply list_elem_of_fmap. by exists (src, dst'). }
        rewrite Hsrcs in Hsrc_in. by apply list_elem_of_filter in Hsrc_in as [_ ?]. }
    intros q n Hq Hnot_in. apply not_elem_of_cons in Hnot_in as [Hqp Hq_rest].
    apply Huntouched; [|done]. by apply Hkeep.
Qed.

Lemma elem_of_children (f : gmap path node) d p :
  p ∈ children f d <-> is_child d p = true /\ is_Some (f !! p).
Proof.
  unfold children. rewrite list_elem_of_filter.
  change (map fst (map_to_list f)) with ((map_to_list f).*1).
  rewrite elem_of_keys_map. tauto.
Qed.

End Sweep.

(** C7 as the code has it.  When the watched folder is a directory and no
    regular file sits where the category folder of a file to move has to
    be, [reorganize_all] moves, at once and whatever the state of the
    pending set, exactly the entries directly inside the watched folder
    that are neither directories nor hidden, each into its category
    folder; it calls the callback once per file moved, leaves every other
    entry of the file system as it was, and returns the number of files
    moved.  The number does not depend on the order of the listing. *)
Theorem reorganize_all_counts_the_eligible :
  forall b w,
    let watch := boop_watch_folder b in
    let m := build_extension_map (config_categories b) in
    let entries := children (fs w) watch in
    let moved := filter (fun p => eligible (fs w) p = true) entries in
    fs w !! watch = Some Dir ->
    (forall p, p ∈ moved -> category_free (fs w) watch m p) ->
    (exists w' ms,
       reorganize_all b w = Returns (length moved) w' /\
       moves w' = moves w ++ ms /\
       ms.*1 = moved /\
       notified w' =
         notified w ++
           (if boop_on_file_moved b
            then (fun sd : path * path => (sd.2, category_of m sd.1)) <$> ms
            else []) /\
       (forall src dst, (src, dst) ∈ ms ->
          exists data, fs w !! src = Some (File data) /\
                       fs w' !! dst = Some (File data) /\
                       PurePath.parent dst = watch // category_of m src) /\
       (forall q n, fs w !! q = Some n -> q ∉ moved -> fs w' !! q = Some n)) /\
    (forall listing,
       listing ≡ₚ entries ->
       exists w', reorganize_loop b m listing 0 w = Returns (length moved) w').
Proof.
  intros b w watch m entries moved Hdir Hfree.
  assert (forall listing, listing ≡ₚ entries ->
    NoDup listing /\
    (forall p, p ∈ listing -> is_child watch p = true /\ is_Some (fs w !! p)) /\
    (forall p, p ∈ listing -> eligible (fs w) p = true ->
               category_free (fs w) watch m p)) as Hlisting.
  { intros listing Hperm. split; [|split].
    - rewrite Hperm. apply NoDup_children.
    - intros p Hp. rewrite Hperm in Hp. by apply elem_of_children.
    - intros p Hp Hel. apply Hfree. apply list_elem_of_filter.
      split; [done|]. by rewrite <- Hperm. }
  split.
  - destruct (Hlisting entries) as (Hnd & Hch & Hcf); [done|].
    destruct (reorganize_loop_spec b m entries 0 w Hnd Hch Hdir Hcf)
      as (w' & ms & Hloop & Hrest).
    exists w', ms. split; [|exact Hrest].
    unfold reorganize_all, bind, iterdir. fold watch. by rewrite Hdir.
  - intros listing Hperm.
    destruct (Hlisting listing Hperm) as (Hnd & Hch & Hcf).
    destruct (reorganize_loop_spec b m listing 0 w Hnd Hch Hdir Hcf)
      as (w' & ms & Hloop & _).
    exists w'. rewrite Hloop. do 2 f_equal. unfold moved.
    apply Permutation_length. by apply filter_Permutation.
Qed.

(** The theorem at a folder with two files, a hidden file and a folder. *)
Lemma reorganize_all_counts_the_eligible_witness :
  exists w',
    reorganize_all Scenario.boop (Scenario.world Scenario.mixed_folder)
      = Returns 2%nat w' /\
    fs w' !! ["D"; ".hidden"] = Some (File "secret") /\
    fs w' !! ["D"; "sub"] = Some Dir.
Proof.
  set (moved := filter (fun p => eligible Scenario.mixed_folder p = true)
                       (children Scenario.mixed_folder ["D"])).
  assert (moved = [["D"; "notes.txt"]; ["D"; "photo.jpg"]]) as Hmoved.
  { vm_compute. reflexivity. }
  destruct (reorganize_all_counts_the_eligible Scenario.boop
              (Scenario.world Scenario.mixed_folder))
    as [(w' & ms & Hrun & _ & _ & _ & _ & Hkeep) _].
  - vm_compute. reflexivity.
  - intros p Hp data. change (p ∈ moved) in Hp. rewrite Hmoved in Hp.
    apply elem_of_cons in Hp as [->|Hp];
      [|apply list_elem_of_singleton in Hp as ->]; vm_compute; discriminate.
  - change (reorganize_all Scenario.boop (Scenario.world Scenario.mixed_folder)
            = Returns (length moved) w') in Hrun.
    change (forall q n, Scenario.mixed_folder !! q = Some n -> q ∉ moved ->
                        fs w' !! q = Some n) in Hkeep.
    rewrite Hmoved in Hrun, Hkeep.
    exists w'. split; [exact Hrun|]. split.
    + apply Hkeep; [vm_compute; reflexivity|].
      intros Hin. apply (bool_decide_pack _) in Hin. vm_compute in Hin. exact Hin.
    + apply Hkeep; [vm_compute; reflexivity|].
      intros Hin. apply (bool_decide_pack _) in Hin. vm_compute in Hin. exact Hin.
Defined.

(** C7 as the specification states it fails: the folder holds two eligible
    files and nothing else, and the sweep raises instead of returning 2,
    because one of them is a regular file named like the category folder
    the sweep has to make. *)
Lemma reorganize_all_raises_on_blocked_category :
  let b := mkBoop [] Scenario.downloads true in
  let w := Scenario.world Scenario.file_named_other in
  length (filter (fun p => eligible (fs w) p = true)
                 (children (fs w) (boop_watch_folder b))) = 2%nat /\
  reorganize_all b w = Raises FileExistsError w.
Proof. split; vm_compute; reflexivity. Qed.

(** * Further properties of the modelled code *)

(** ** [move_file]: every return and every error *)

Section MoveFile.

Implicit Types (f : gmap path node) (p q src dst : path) (w : World).

Lemma mkdir_returns d w w1 :
  mkdir_exist_ok d w = Returns tt w1 ->
  folder_ready (fs w) d /\ w1 = set_fs (with_folder (fs w) d) w.
Proof.
  unfold mkdir_exist_ok, folder_ready, with_folder.
  destruct (fs w !! d) as [[data|]|] eqn:Hd.
  - done.
  - intros [= <-]. split; [by left|]. by destruct w.
  - destruct (fs w !! PurePath.parent d) as [[data|]|] eqn:Hpar; try done.
    intros [= <-]. split; [by right | done].
Qed.

Lemma mkdir_raises d w e w1 : mkdir_exist_ok d w = Raises e w1 -> w1 = w.
Proof.
  unfold mkdir_exist_ok.
  destruct (fs w !! d) as [[data|]|].
  - by intros [= _ <-].
  - done.
  - destruct (fs w !! PurePath.parent d) as [[data|]|].
    + by intros [= _ <-].
    + done.
    + by intros [= _ <-].
Qed.

Lemma relocate_keeps src dst f q n :
  f !! dst = None -> ~ src `prefix_of` q -> f !! q = Some n ->
  relocate src dst f !! q = Some n.
Proof.
  intros Hdst Hq Hn. unfold relocate.
  destruct (f !! src) as [[data|]|] eqn:Hsrc; [| |done].
  - rewrite lookup_insert_ne by (intros ->; congruence).
    rewrite lookup_delete_ne; [done|]. intros ->. by apply Hq.
  - unfold relocate_tree. apply lookup_union_Some_l.
    by apply map_lookup_filter_Some_2.
Qed.

Lemma rebase_inj src dst (k1 k2 : path) :
  src `prefix_of` k1 -> src `prefix_of` k2 ->
  dst ++ drop (length src) k1 = dst ++ drop (length src) k2 -> k1 = k2.
Proof.
  intros [s1 ->] [s2 ->]. rewrite !drop_app_length.
  intros H. apply app_inv_head in H. by subst.
Qed.

Lemma relocate_arrives src dst f n :
  f !! src = Some n -> f !! dst = None ->
  (n = Dir -> ~ src `prefix_of` dst) ->
  relocate src dst f !! dst = Some n.
Proof.
  intros Hsrc Hdst Hinto. unfold relocate. rewrite Hsrc.
  destruct n as [data|]; [apply lookup_insert_eq|].
  unfold relocate_tree.
  set (under := filter (fun kv : path * node => src `prefix_of` kv.1) f).
  rewrite lookup_union_r.
  2:{ apply map_lookup_filter_None. left. done. }
  apply elem_of_list_to_map_1.
  - rewrite <- list_fmap_compose.
    apply NoDup_fmap_2_strong; [|apply NoDup_map_to_list].
    intros [k1 n1] [k2 n2] H1 H2 Heq. cbn in Heq.
    apply elem_of_map_to_list in H1, H2.
    apply map_lookup_filter_Some in H1 as [H1 Hp1], H2 as [H2 Hp2].
    cbn in Hp1, Hp2.
    assert (k1 = k2) as -> by (by apply (rebase_inj src dst)).
    congruence.
  - apply list_elem_of_fmap. exists (src, Dir). split.
    + cbn. by rewrite drop_all, app_nil_r.
    + apply elem_of_map_to_list. by apply map_lookup_filter_Some_2.
Qed.

Lemma shutil_move_returns src dst w r w' :
  fs w !! dst = None ->
  shutil_move src dst w = Returns r w' ->
  exists n,
    fs w !! src = Some n /\
    (n = Dir -> ~ src `prefix_of` dst) /\
    w' = mkWorld (relocate src dst (fs w)) (moves w ++ [(src, dst)])
                 (notified w) (last_file w).
Proof.
  intros Hdst. unfold shutil_move.
  rewrite Hdst, (bool_decide_eq_false_2 (None = Some Dir)) by done.
  cbn [andb]. destruct (fs w !! src) as [n|]; [|done].
  destruct (bool_decide (n = Dir) && bool_decide (src `prefix_of` dst)) eqn:Hinto;
    [done|].
  destruct (fs w !! PurePath.parent dst) as [[data|]|]; try done.
  intros [= <- <-]. exists n. split; [done|]. split; [|done].
  intros -> Hpre. rewrite bool_decide_eq_true_2 in Hinto by done.
  by rewrite bool_decide_eq_true_2 in Hinto.
Qed.

(** The pipeline up to and including [shutil.move], when it returns. *)
Lemma transfer_returns folder m p w dc w1 :
  transfer folder m p w = Returns dc w1 ->
  exists dst,
    dc = (dst, category_of m p) /\
    PurePath.parent dst = folder // category_of m p /\
    fs w !! dst = None /\
    is_Some (fs w !! p) /\
    fs w1 !! dst = fs w !! p /\
    moves w1 = moves w ++ [(p, dst)] /\
    notified w1 = notified w /\
    last_file w1 = last_file w /\
    forall q n, ~ p `prefix_of` q -> fs w !! q = Some n -> fs w1 !! q = Some n.
Proof.
  intros Hrun. rewrite transfer_unfold in Hrun. cbn zeta in Hrun.
  set (d := folder // category_of m p) in *.
  destruct (mkdir_exist_ok _ w) as [[] w0|] eqn:Hmk; [|done].
  apply mkdir_returns in Hmk as [Hready ->].
  set (f1 := with_folder (fs w) d) in *.
  cbn [fs set_fs] in Hrun.
  destruct (choose_dest_first_free f1 d
              (PurePath.name p) (PurePath.stem p) (lower (PurePath.suffix p)))
    as (dst & Hch & Hff).
  rewrite Hch in Hrun.
  destruct (shutil_move p dst (set_fs f1 w)) as [r w2|] eqn:Hmv; [|done].
  assert (f1 !! dst = None) as Hdst1 by by destruct Hff.
  apply shutil_move_returns in Hmv as (n & Hp1 & Hinto & ->); [|done].
  cbn [fs set_fs moves notified last_file] in *.
  injection Hrun as <- <-. cbn [fs moves notified last_file].
  assert (fs w !! dst = None) as Hdst.
  { destruct (fs w !! dst) as [n'|] eqn:Hd; [|done].
    apply (with_folder_keeps _ d) in Hd. fold f1 in Hd. congruence. }
  assert (fs w !! p = Some n) as Hp.
  { destruct (decide (p = d)) as [Heq|Hne].
    - exfalso. assert (n = Dir) as Hn.
      { unfold f1 in Hp1. rewrite Heq in Hp1.
        rewrite with_folder_dir in Hp1 by done. by injection Hp1. }
      apply (Hinto Hn). rewrite Heq at 1.
      destruct Hff as [_ [[_ ->]|[_ (k & _ & -> & _)]]]; by eexists.
    - unfold f1 in Hp1. by rewrite with_folder_other in Hp1. }
  exists dst. split; [done|]. split.
  { destruct Hff as [_ [[_ ->]|[_ (k & _ & -> & _)]]]; apply parent_join. }
  split; [done|]. split; [by eexists|]. split.
  { rewrite Hp. by apply relocate_arrives. }
  split; [done|]. split; [done|]. split; [done|].
  intros q n' Hq Hn'. apply relocate_keeps; [done | done |].
  by apply with_folder_keeps.
Qed.

(** The pipeline when it raises: the error is that of [mkdir] or of
    [shutil.move], and all it may leave behind is the category folder. *)
Lemma transfer_raises folder m p w e w1 :
  transfer folder m p w = Raises e w1 ->
  let d := folder // category_of m p in
  e <> OutOfFuel /\
  moves w1 = moves w /\
  notified w1 = notified w /\
  last_file w1 = last_file w /\
  (fs w1 = fs w \/ (fs w !! d = None /\ fs w1 = <[d := Dir]> (fs w))) /\
  forall q n, fs w !! q = Some n -> fs w1 !! q = Some n.
Proof.
  intros Hrun d.
  assert (e <> OutOfFuel) as Hfuel.
  { intros ->. by apply transfer_fuel in Hrun. }
  split; [done|].
  rewrite transfer_unfold in Hrun. cbn zeta in Hrun. fold d in Hrun.
  assert (w1 = w \/ w1 = set_fs (with_folder (fs w) d) w) as Hw1.
  { destruct (mkdir_exist_ok d w) as [[] w0|e0 w0] eqn:Hmk.
    - apply mkdir_returns in Hmk as [_ ->].
      destruct (choose_dest _ _ _ _ _) as [dst|]; [|injection Hrun as _ <-; by right].
      pose proof (shutil_move_effects p dst (set_fs (with_folder (fs w) d) w)) as Hs.
      destruct (shutil_move p dst _) as [r w2|e2 w2]; [done|].
      injection Hrun as _ <-. by right.
    - apply mkdir_raises in Hmk as ->. injection Hrun as _ <-. by left. }
  destruct Hw1 as [->| ->]; cbn [fs moves notified last_file set_fs].
  - repeat split; try done. by left.
  - repeat split; try done.
    + unfold with_folder. destruct (fs w !! d) eqn:Hd; [by left | by right].
    + intros q n. apply with_folder_keeps.
Qed.

Lemma move_file_calling_transfer callback h p w :
  move_file_calling callback h p w =
  match transfer (watch_folder h) (ext_map h) p w with
  | Returns (d, c) w1 =>
      if on_file_moved h
      then match callback d c w1 with
           | Returns _ w2 => Returns NoValue w2
           | Raises e w2 => Raises e w2
           end
      else Returns NoValue w1
  | Raises e w1 => Raises e w1
  end.
Proof.
  unfold move_file_calling, transfer, bind, ret.
  repeat (case_match; simplify_eq; try done).
Qed.

(** [move_file], when it returns. *)
Lemma move_file_returns h p w v w' :
  move_file h p w = Returns v w' ->
  exists dst,
    PurePath.parent dst = watch_folder h // category_of (ext_map h) p /\
    moves w' = moves w ++ [(p, dst)] /\
    notified w' = notified w ++ callbacks_of h [(p, dst)] /\
    forall q n, ~ p `prefix_of` q -> fs w !! q = Some n -> fs w' !! q = Some n.
Proof.
  rewrite move_file_transfer.
  destruct (transfer _ _ _ w) as [[d c] w1|e w1] eqn:Hrun; [|done].
  apply transfer_returns in Hrun
    as (dst & [= -> ->] & Hpar & _ & _ & _ & Hmoves & Hnot & _ & Hkeep).
  intros [= <- <-]. exists dst. unfold callbacks_of.
  destruct (on_file_moved h); cbn [fs moves notified fmap list_fmap fst snd].
  - by rewrite Hnot.
  - by rewrite app_nil_r.
Qed.

End MoveFile.

(** X3 (move_file): whenever [move_file] returns, it has made exactly one
    move: of its argument, which was on disk, onto a name directly inside
    the category folder that was not occupied before.  What was at the
    source is now at the destination, the callback has been called once
    with the destination and the category if one is registered and not at
    all otherwise, and every entry that is neither the source nor beneath
    it is as it was. *)
Theorem move_file_return_is_one_move :
  forall h p w v w',
    move_file h p w = Returns v w' ->
    let category := category_of (ext_map h) p in
    v = NoValue /\
    exists dst,
      PurePath.parent dst = watch_folder h // category /\
      fs w !! dst = None /\
      is_Some (fs w !! p) /\
      fs w' !! dst = fs w !! p /\
      moves w' = moves w ++ [(p, dst)] /\
      notified w' =
        notified w ++ (if on_file_moved h then [(dst, category)] else []) /\
      forall q n, ~ p `prefix_of` q -> fs w !! q = Some n -> fs w' !! q = Some n.
Proof.
  intros h p w v w' Hrun category.
  rewrite move_file_transfer, transfer_unfold in Hrun. cbn zeta in Hrun.
  fold category in Hrun.
  destruct (mkdir_exist_ok _ w) as [[] w1|] eqn:Hmk; [|done].
  apply mkdir_returns in Hmk as [Hready ->].
  set (f1 := with_folder (fs w) (watch_folder h // category)) in *.
  cbn [fs set_fs] in Hrun.
  destruct (choose_dest_first_free f1 (watch_folder h // category)
              (PurePath.name p) (PurePath.stem p) (lower (PurePath.suffix p)))
    as (dst & Hch & Hff).
  rewrite Hch in Hrun.
  destruct (shutil_move p dst (set_fs f1 w)) as [r w2|] eqn:Hmv; [|done].
  assert (f1 !! dst = None) as Hdst1 by by destruct Hff.
  apply shutil_move_returns in Hmv as (n & Hp1 & Hinto & ->); [|done].
  cbn [fs set_fs moves notified last_file] in *.
  assert (fs w !! dst = None) as Hdst.
  { destruct (fs w !! dst) as [n'|] eqn:Hd; [|done].
    apply (with_folder_keeps _ (watch_folder h // category)) in Hd.
    fold f1 in Hd. congruence. }
  assert (fs w !! p = Some n) as Hp.
  { destruct (decide (p = watch_folder h // category)) as [Heq|Hne].
    - exfalso. assert (n = Dir) as Hn.
      { unfold f1 in Hp1. rewrite Heq in Hp1.
        rewrite with_folder_dir in Hp1 by done. by injection Hp1. }
      apply (Hinto Hn). rewrite Heq at 1.
      destruct Hff as [_ [[_ ->]|[_ (k & _ & -> & _)]]]; by eexists.
    - unfold f1 in Hp1. by rewrite with_folder_other in Hp1. }
  assert (v = NoValue /\
          w' = mkWorld (relocate p dst f1) (moves w ++ [(p, dst)])
                 (notified w ++ (if on_file_moved h then [(dst, category)] else []))
                 (last_file w)) as [-> ->].
  { destruct (on_file_moved h); injection Hrun as <- <-; [done|].
    by rewrite app_nil_r. }
  split; [done|]. exists dst. cbn [fs moves notified].
  split.
  { destruct Hff as [_ [[_ ->]|[_ (k & _ & -> & _)]]]; apply parent_join. }
  split; [done|]. split; [by eexists|]. split.
  { rewrite Hp. by apply relocate_arrives. }
  split; [done|]. split; [done|].
  intros q n' Hq Hn'. apply relocate_keeps; [done | done |].
  by apply with_folder_keeps.
Qed.

(** The theorem at a downloaded folder, which moves with what it holds. *)
Lemma move_file_return_is_one_move_witness :
  let w := Scenario.world
             (<[["D"; "pkg"; "x.txt"] := File "x"]>
                (<[["D"; "pkg"] := Dir]> Scenario.empty_folder)) in
  exists w' dst,
    move_file (Scenario.handler []) ["D"; "pkg"] w = Returns NoValue w' /\
    PurePath.parent dst = ["D"; "Other"] /\
    fs w' !! dst = Some Dir /\
    moves w' = [(["D"; "pkg"], dst)].
Proof.
  intros w.
  destruct (move_file (Scenario.handler []) ["D"; "pkg"] w) as [v w'|] eqn:Hrun;
    [|vm_compute in Hrun; discriminate Hrun].
  destruct (move_file_return_is_one_move _ _ _ _ _ Hrun)
    as (-> & dst & Hpar & _ & _ & Hdst & Hmoves & _).
  exists w', dst. split; [done|]. split; [exact Hpar|]. split.
  - rewrite Hdst. vm_compute. reflexivity.
  - exact Hmoves.
Defined.

(** X4 (move_file): when [move_file] raises, whatever the callback does,
    the error has one of two origins.  Either it is the error of [mkdir] or
    of [shutil.move]: then the callback plays no part (the call raises the
    same with any callback), nothing has been moved, no callback has been
    called, and the file system is as it was except that the category
    folder may have been created, so that every entry that was present, the
    source included, is still in place.  Or a callback is registered and
    the error is its own: then it was raised after the move, the file
    having left its place for a free name directly inside the category
    folder. *)
Theorem move_file_error_is_early_or_of_the_callback :
  forall callback h p w e w',
    move_file_calling callback h p w = Raises e w' ->
    let category := category_of (ext_map h) p in
    let d := watch_folder h // category in
    ((forall other, move_file_calling other h p w = Raises e w') /\
     e <> OutOfFuel /\
     moves w' = moves w /\
     notified w' = notified w /\
     last_file w' = last_file w /\
     (fs w' = fs w \/ (fs w !! d = None /\ fs w' = <[d := Dir]> (fs w))) /\
     (forall q n, fs w !! q = Some n -> fs w' !! q = Some n))
    \/
    (on_file_moved h = true /\
     exists dst w1,
       PurePath.parent dst = d /\
       fs w !! dst = None /\
       is_Some (fs w !! p) /\
       fs w1 !! dst = fs w !! p /\
       moves w1 = moves w ++ [(p, dst)] /\
       notified w1 = notified w /\
       (forall q n, ~ p `prefix_of` q -> fs w !! q = Some n ->
                    fs w1 !! q = Some n) /\
       callback dst category w1 = Raises e w').
Proof.
  intros callback h p w e w' Hrun category d.
  rewrite move_file_calling_transfer in Hrun.
  destruct (transfer _ _ _ w) as [[dst c] w1|e1 w1] eqn:Htr.
  - right.
    apply transfer_returns in Htr
      as (dst' & [= -> ->] & Hpar & Hfree & Hsrc & Hdst & Hmoves & Hnot & _ & Hkeep).
    destruct (on_file_moved h); [|done]. split; [done|].
    exists dst', w1. repeat (split; [done|]).
    subst category.
    destruct (callback dst' (category_of (ext_map h) p) w1) as [u w2|e2 w2];
      [discriminate Hrun | by injection Hrun as -> ->].
  - left. injection Hrun as -> ->. split.
    + intros other. by rewrite move_file_calling_transfer, Htr.
    + by apply transfer_raises in Htr.
Qed.

(** The theorem at a move that is blocked by a regular file, and at a
    callback that fails once the file has been moved. *)
Lemma move_file_error_is_early_or_of_the_callback_witness :
  (let w := Scenario.world Scenario.file_named_other in
   exists e w',
     move_file_calling notify (Scenario.handler []) ["D"; "b.txt"] w
       = Raises e w' /\
     moves w' = [] /\
     fs w' !! ["D"; "b.txt"] = Some (File "y")) /\
  (let w := Scenario.world Scenario.two_files in
   exists e w',
     move_file_calling failing_callback (Scenario.handler []) ["D"; "a.txt"] w
       = Raises e w' /\
     moves w' = [(["D"; "a.txt"], ["D"; "Other"; "a.txt"])] /\
     fs w' !! ["D"; "a.txt"] = None /\
     fs w' !! ["D"; "Other"; "a.txt"] = Some (File "a")).
Proof.
  split.
  - intros w.
    destruct (move_file_calling notify (Scenario.handler []) ["D"; "b.txt"] w)
      as [|e w'] eqn:Hrun; [vm_compute in Hrun; discriminate Hrun|].
    exists e, w'. split; [done|].
    destruct (move_file_error_is_early_or_of_the_callback _ _ _ _ _ _ Hrun)
      as [(_ & _ & Hmoves & _ & _ & _ & Hkeep)|(_ & dst & w1 & _ & _ & _ & _ & _ & _ & _ & Hcb)].
    + split; [exact Hmoves|]. apply Hkeep. vm_compute. reflexivity.
    + discriminate Hcb.
  - intros w.
    destruct (move_file_calling failing_callback (Scenario.handler [])
                ["D"; "a.txt"] w) as [|e w'] eqn:Hrun;
      [vm_compute in Hrun; discriminate Hrun|].
    exists e, w'. split; [done|].
    destruct (move_file_error_is_early_or_of_the_callback _ _ _ _ _ _ Hrun)
      as [(Hany & _)|_].
    + specialize (Hany notify). vm_compute in Hany. discriminate Hany.
    + vm_compute in Hrun. injection Hrun as _ <-.
      repeat split; vm_compute; reflexivity.
Defined.



(** ** [process_pending]: the ticks that go well *)

Section TickMoves.

Variables (h : DownloadHandler) (now : Z).

Abbreviation folder := (watch_folder h).
Abbreviation index := (ext_map h).

Lemma pending_loop_moves_due items : forall to_remove w,
  NoDup items.*1 ->
  (forall p last, (p, last) ∈ items -> is_child folder p = true) ->
  fs w !! folder = Some Dir ->
  (forall p last, (p, last) ∈ items -> stabilized h now (p, last) ->
                  fs w !! p <> Some Dir) ->
  (forall p last, (p, last) ∈ items -> stabilized h now (p, last) ->
                  is_Some (fs w !! p) ->
                  category_free (fs w) folder index p /\
                  forall q last', (q, last') ∈ items ->
                                  q <> folder // category_of index p) ->
  exists w' ms,
    pending_loop h now items to_remove w =
      Returns (to_remove ++ (filter (stabilized h now) items).*1) w' /\
    moves w' = moves w ++ ms /\
    ms.*1 = filter (fun p => is_Some (fs w !! p))
                   (filter (stabilized h now) items).*1 /\
    notified w' =
      notified w ++
        (if on_file_moved h
         then (fun sd : path * path => (sd.2, category_of index sd.1)) <$> ms
         else []) /\
    (forall src dst, (src, dst) ∈ ms ->
       exists data, fs w !! src = Some (File data) /\
                    fs w' !! dst = Some (File data) /\
                    fs w' !! src = None /\
                    PurePath.parent dst = folder // category_of index src) /\
    (forall q n, fs w !! q = Some n -> q ∉ ms.*1 -> fs w' !! q = Some n) /\
    (forall q, length q = S (length folder) -> fs w !! q = None ->
               (forall p last, (p, last) ∈ items -> stabilized h now (p, last) ->
                               is_Some (fs w !! p) ->
                               q <> folder // category_of index p) ->
               fs w' !! q = None).
Proof.
  induction items as [|[p last] rest IH];
    intros acc w Hnd Hch Hdir Hnodir Hfree.
  { exists w, []. cbn. rewrite !app_nil_r.
    split; [done|]. split; [done|]. split; [done|]. split.
    - destruct (on_file_moved h); by rewrite app_nil_r.
    - split; [|done]. intros src dst Hin. by apply elem_of_nil in Hin. }
  rewrite fmap_cons in Hnd. cbn [fst] in Hnd.
  apply NoDup_cons in Hnd as [Hp_rest Hnd].
  assert (forall q l, (q, l) ∈ rest -> (q, l) ∈ (p, last) :: rest) as Hin_rest
    by (intros; by right).
  assert (forall q l, (q, l) ∈ rest -> is_child folder q = true) as Hch'.
  { intros q l Hq. apply (Hch q l). by right. }
  assert (forall q l, (q, l) ∈ rest -> stabilized h now (q, l) ->
                      fs w !! q <> Some Dir) as Hnodir'.
  { intros q l Hq. apply Hnodir. by right. }
  assert (forall q l, (q, l) ∈ rest -> stabilized h now (q, l) ->
            is_Some (fs w !! q) ->
            category_free (fs w) folder index q /\
            forall q' l', (q', l') ∈ rest ->
                          q' <> folder // category_of index q) as Hfree'.
  { intros q l Hq Hs Hsome.
    destruct (Hfree q l (Hin_rest _ _ Hq) Hs Hsome) as [Hc Hn].
    split; [done|]. intros q' l' Hq'. apply (Hn q' l'). by right. }
  cbn [pending_loop]. rewrite filter_cons.
  destruct (Z.ltb_spec (now - last) (debounce h)) as [Hlt|Hge].
  { rewrite decide_False by (unfold stabilized; cbn; lia).
    destruct (IH acc w) as (w' & ms & H1 & H2 & H3 & H4 & H5 & H6 & H7);
      try done.
    exists w', ms. do 6 (split; [done|]).
    intros q Hlen Hq Hnames. apply H7; try done.
    intros p' l' Hp'. apply Hnames. by right. }
  assert (stabilized h now (p, last)) as Hst by (unfold stabilized; cbn; lia).
  rewrite decide_True by done. rewrite fmap_cons. cbn [fst].
  rewrite filter_cons. unfold bind at 1, path_exists.
  destruct (fs w !! p) as [n|] eqn:Hp.
  2:{ (* the file is gone *)
      assert (occupied (fs w) p = false) as -> by by apply occupied_false.
      cbn [negb]. rewrite decide_False by (by intros [? ?]).
      destruct (IH (acc ++ [p]) w)
        as (w' & ms & Hloop & H2 & H3 & H4 & H5 & H6 & H7); try done.
      exists w', ms. split; [rewrite Hloop; by rewrite <- app_assoc|].
      do 5 (split; [done|]).
      intros q Hlen Hq Hnames. apply H7; try done.
      intros p' l' Hp'. apply Hnames. by right. }
  assert (occupied (fs w) p = true) as -> by (apply occupied_true; by eexists).
  cbn [negb]. rewrite decide_True by (by eexists).
  destruct n as [data|]; [|by destruct (Hnodir p last ltac:(by left) Hst)].
  destruct (Hfree p last ltac:(by left) Hst ltac:(by eexists)) as [Hcf Hnames].
  assert (is_child folder p = true) as Hp_child by (apply (Hch p last); by left).
  assert (folder_ready (fs w) (folder // category_of index p)) as Hready.
  { unfold category_free in Hcf.
    destruct (fs w !! (folder // category_of index p)) as [[data'|]|] eqn:Hc.
    - by destruct (Hcf data').
    - by left.
    - right. split; [done|]. by rewrite parent_join. }
  destruct (move_file_file h p data w Hp Hready) as (dst & Hff & Hrun).
  unfold bind. rewrite Hrun.
  set (f1 := with_folder (fs w) (folder // category_of index p)) in *.
  set (w1 := mkWorld _ _ _ _).
  assert (f1 !! p = Some (File data)) as Hp1 by by apply with_folder_keeps.
  assert (f1 !! dst = None) as Hdst1 by by destruct Hff.
  assert (PurePath.parent dst = folder // category_of index p) as Hpar.
  { destruct Hff as [_ [[_ ->]|[_ (k & _ & -> & _)]]]; apply parent_join. }
  assert (length dst = S (S (length folder))) as Hlen.
  { destruct Hff as [_ [[_ ->]|[_ (k & _ & -> & _)]]];
      unfold candidate; by rewrite !length_join. }
  destruct (moved_file_lookups f1 p dst data Hp1 Hdst1) as (Hdst & Hgone & Hkeep1).
  assert (forall q n, q <> p -> fs w !! q = Some n -> fs w1 !! q = Some n) as Hkeep.
  { intros q n Hq Hn. apply Hkeep1; [done|]. by apply with_folder_keeps. }
  assert (forall q l, (q, l) ∈ rest -> fs w1 !! q = fs w !! q) as Hsame.
  { intros q l Hq. unfold w1. cbn [fs].
    assert (q <> p) as Hqp.
    { intros ->. apply Hp_rest. apply list_elem_of_fmap. by exists (p, l). }
    assert (q <> dst) as Hqd.
    { intros ->. pose proof (Hch _ _ (Hin_rest _ _ Hq)) as Hc.
      apply child_length in Hc. lia. }
    rewrite lookup_insert_ne, lookup_delete_ne by done.
    unfold f1. apply with_folder_other. apply (Hnames q l). by right. }
  assert (filter (fun q => is_Some (fs w1 !! q)) (filter (stabilized h now) rest).*1
          = filter (fun q => is_Some (fs w !! q)) (filter (stabilized h now) rest).*1)
    as Hfilter.
  { apply filter_ext_in. intros q Hq.
    apply list_elem_of_fmap in Hq as ([q' l] & -> & Hq).
    apply list_elem_of_filter in Hq as [_ Hq]. cbn [fst]. by rewrite (Hsame q' l). }
  destruct (IH (acc ++ [p]) w1)
    as (w' & ms & Hloop & Hmoves & Hsrcs & Hnot & Hms & Huntouched & Habsent).
  - done.
  - done.
  - apply Hkeep; [|done]. intros Heq. rewrite <- Heq in Hp. congruence.
  - intros q l Hq Hstq. rewrite (Hsame q l Hq). by apply (Hnodir' q l).
  - intros q l Hq Hstq Hsome. rewrite (Hsame q l Hq) in Hsome.
    destruct (Hfree' q l Hq Hstq Hsome) as [Hcfq Hnamesq].
    split; [|done].
    intros data' Hblock.
    set (x := folder // category_of index q) in *.
    assert (x <> dst) as Hxd.
    { intros Heq. apply (f_equal length) in Heq. unfold x in Heq.
      rewrite length_join, Hlen in Heq. lia. }
    unfold w1 in Hblock. cbn [fs] in Hblock.
    rewrite lookup_insert_ne in Hblock by done.
    destruct (decide (x = p)) as [Hxp|Hxp].
    + rewrite Hxp, lookup_delete_eq in Hblock. done.
    + rewrite lookup_delete_ne in Hblock by done.
      destruct (decide (x = folder // category_of index p)) as [Hxc|Hxc].
      * rewrite Hxc in Hblock. unfold f1 in Hblock.
        rewrite with_folder_dir in Hblock by done. done.
      * unfold f1 in Hblock. rewrite with_folder_other in Hblock by done.
        by apply (Hcfq data').
  - rewrite Hfilter in Hsrcs.
    exists w', ((p, dst) :: ms). split.
    { rewrite Hloop. by rewrite <- app_assoc. }
    split.
    { rewrite Hmoves. unfold w1. cbn [moves]. by rewrite <- app_assoc. }
    split.
    { rewrite fmap_cons. cbn [fst]. by rewrite Hsrcs. }
    split.
    { rewrite Hnot. unfold w1. cbn [notified]. rewrite <- app_assoc.
      by destruct (on_file_moved h). }
    split.
    { intros src dst' Hin. apply elem_of_cons in Hin as [[= -> ->]|Hin].
      - exists data. split; [done|]. split; [|split; [|done]].
        2:{ apply Habsent; [by apply child_length | done |].
            intros p' l' Hp' Hst' Hsome'. rewrite (Hsame p' l' Hp') in Hsome'.
            destruct (Hfree' p' l' Hp' Hst' Hsome') as [_ Hn].
            destruct (Hfree p' l' (Hin_rest _ _ Hp') Hst' Hsome') as [_ Hn'].
            apply (Hn' p last). by left. }
        apply Huntouched; [done|].
        rewrite Hsrcs. intros Hin. apply list_elem_of_filter in Hin as [_ Hin].
        apply list_elem_of_fmap in Hin as ([q l] & Heq & Hq).
        apply list_elem_of_filter in Hq as [_ Hq]. cbn [fst] in Heq.
        pose proof (Hch' _ _ Hq) as Hc.
        apply child_length in Hc. rewrite <- Heq in Hc. lia.
      - destruct (Hms src dst' Hin) as (data' & Hsrc & Hdst' & Hsrc' & Hpar').
        exists data'. split; [|done].
        assert (src ∈ ms.*1) as Hsrc_in.
        { apply list_elem_of_fmap. by exists (src, dst'). }
        rewrite Hsrcs in Hsrc_in.
        apply list_elem_of_filter in Hsrc_in as [_ Hsrc_in].
        apply list_elem_of_fmap in Hsrc_in as ([q l] & Heq & Hq).
        apply list_elem_of_filter in Hq as [_ Hq]. cbn [fst] in Heq.
        rewrite Heq. rewrite Heq in Hsrc. by rewrite <- (Hsame q l). }
    split.
    { intros q n Hq Hnot_in. rewrite fmap_cons in Hnot_in. cbn [fst] in Hnot_in.
      apply not_elem_of_cons in Hnot_in as [Hqp Hq_rest].
      apply Huntouched; [|done]. by apply Hkeep. }
    intros q Hlenq Hq Hclear. apply Habsent; [done| |].
    + unfold w1. cbn [fs].
      rewrite lookup_insert_ne by (intros Heq; rewrite <- Heq in Hlenq; lia).
      destruct (decide (q = p)) as [->|Hqp]; [apply lookup_delete_eq|].
      rewrite lookup_delete_ne by done.
      unfold f1. rewrite with_folder_other; [done|].
      apply (Hclear p last); [by left | done | by eexists].
    + intros p' l' Hp' Hst' Hsome'. rewrite (Hsame p' l' Hp') in Hsome'.
      apply (Hclear p' l'); [by right | done | done].
Qed.

End TickMoves.

(** X1 (process_pending): the tick on a healthy folder.  Let the pending
    paths lie directly inside the watched folder, which is a directory;
    let no due entry be a directory on disk; and for every due file on
    disk let no regular file and no pending path have the name of its
    category folder.  Then the tick returns, removes exactly the due
    entries, and moves every due file that is on disk, in the order of the
    pending set, into its category folder: the file is there afterwards
    and no longer in the watched folder, the callback is called once per
    move, and every other entry of the file system is as it was. *)
Theorem tick_moves_every_due_file :
  forall h now w,
    let folder := watch_folder h in
    let due := filter (stabilized h now) (pending h) in
    NoDup (pending h).*1 ->
    (forall p last, (p, last) ∈ pending h -> is_child folder p = true) ->
    fs w !! folder = Some Dir ->
    (forall p last, (p, last) ∈ pending h -> stabilized h now (p, last) ->
                    fs w !! p <> Some Dir) ->
    (forall p last, (p, last) ∈ pending h -> stabilized h now (p, last) ->
                    is_Some (fs w !! p) ->
                    category_free (fs w) folder (ext_map h) p /\
                    forall q last', (q, last') ∈ pending h ->
                                    q <> folder // category_of (ext_map h) p) ->
    exists w' ms,
      tick h now w =
        (set_pending (filter (fun kv => ~ stabilized h now kv) (pending h)) h,
         w', None) /\
      moves w' = moves w ++ ms /\
      ms.*1 = filter (fun p => is_Some (fs w !! p)) due.*1 /\
      notified w' =
        notified w ++
          (if on_file_moved h
           then (fun sd : path * path => (sd.2, category_of (ext_map h) sd.1)) <$> ms
           else []) /\
      (forall src dst, (src, dst) ∈ ms ->
         exists data, fs w !! src = Some (File data) /\
                      fs w' !! dst = Some (File data) /\
                      fs w' !! src = None /\
                      PurePath.parent dst = folder // category_of (ext_map h) src) /\
      (forall q n, fs w !! q = Some n -> q ∉ ms.*1 -> fs w' !! q = Some n).
Proof.
  intros h now w folder due Hnd Hch Hdir Hnodir Hfree.
  destruct (pending_loop_moves_due h now (pending h) [] w Hnd Hch Hdir Hnodir Hfree)
    as (w' & ms & Hloop & Hmoves & Hsrcs & Hnot & Hms & Hkeep & _).
  exists w', ms. split; [|done].
  assert (process_pending h now w =
          Returns (set_pending (foldl (fun d p => dict_pop p d) (pending h)
                                  ([] ++ (filter (stabilized h now) (pending h)).*1)) h)
                  w') as Hpp.
  { unfold process_pending, bind, ret. by rewrite Hloop. }
  unfold tick. rewrite Hpp.
  by rewrite <- (process_pending_returns h now w _ w' Hnd Hpp).
Qed.

(** The theorem at a photo created at 0 and left alone, for the tick at 2:
    the photo is in [Images] and no longer in the watched folder. *)
Lemma tick_moves_every_due_file_witness :
  let h := on_created (Scenario.handler []) (mkEvent false ["D"; "photo.jpg"]) 0 in
  let w := Scenario.arrives ["D"; "photo.jpg"] "pixels"
             (Scenario.world Scenario.empty_folder) in
  exists w' dst,
    tick h 2 w = (Scenario.handler [], w', None) /\
    PurePath.parent dst = ["D"; "Images"] /\
    fs w' !! dst = Some (File "pixels") /\
    fs w' !! ["D"; "photo.jpg"] = None /\
    notified w' = [(dst, "Images")].
Proof.
  intros h w.
  assert (pending h = [(["D"; "photo.jpg"], 0%Z)]) as Hpd by reflexivity.
  destruct (tick_moves_every_due_file h 2 w)
    as (w' & ms & Htick & Hmoves & Hsrcs & Hnot & Hms & _).
  - rewrite Hpd. repeat constructor. by intros ?%elem_of_nil.
  - rewrite Hpd. intros p last ?%list_elem_of_singleton. by simplify_eq.
  - reflexivity.
  - rewrite Hpd. intros p last ?%list_elem_of_singleton _. simplify_eq.
    vm_compute. discriminate.
  - rewrite Hpd. intros p last ?%list_elem_of_singleton _ _. simplify_eq. split.
    + intros data. vm_compute. discriminate.
    + intros q last' ?%list_elem_of_singleton. simplify_eq.
      vm_compute. discriminate.
  - assert (ms.*1 = [["D"; "photo.jpg"]]) as Hsrc by (rewrite Hsrcs; reflexivity).
    destruct ms as [|[src dst] [|? ?]]; try discriminate Hsrc.
    injection Hsrc as ->.
    destruct (Hms ["D"; "photo.jpg"] dst) as (data & Hsrc & Hdst & Hgone & Hpar);
      [by left|].
    exists w', dst. split; [rewrite Htick; reflexivity|].
    split; [exact Hpar|]. split.
    + rewrite Hdst. f_equal. vm_compute in Hsrc. congruence.
    + split; [exact Hgone|]. rewrite Hnot. reflexivity.
Defined.

(** X2 (process_pending): a tick that finds no entry due does nothing at
    all: the handler and the world are as before, whatever is on disk.
    In particular a tick that follows a tick that returned, at the same
    reading of the clock, does nothing. *)
Theorem tick_without_due_entry_is_a_no_op :
  (forall h now w,
     (forall kv, kv ∈ pending h -> ~ stabilized h now kv) ->
     tick h now w = (h, w, None)) /\
  (forall h0 now w0 h w1,
     NoDup (pending h0).*1 ->
     process_pending h0 now w0 = Returns h w1 ->
     forall w2, tick h now w2 = (h, w2, None)).
Proof.
  assert (forall h now w,
    (forall kv, kv ∈ pending h -> ~ stabilized h now kv) ->
    tick h now w = (h, w, None)) as Hnoop.
  { intros h now w Hnone.
    assert (forall items acc, (forall kv, kv ∈ items -> ~ stabilized h now kv) ->
              pending_loop h now items acc w = Returns acc w) as Hloop.
    { induction items as [|[p last] items IH]; intros acc Hall; [done|].
      cbn [pending_loop].
      assert (~ stabilized h now (p, last)) as Hns by (apply Hall; by left).
      unfold stabilized in Hns. cbn in Hns.
      destruct (Z.ltb_spec (now - last) (debounce h)) as [_|Hge]; [|lia].
      apply IH. intros kv Hkv. apply Hall. by right. }
    unfold tick, process_pending, bind, ret. rewrite Hloop by done.
    cbn [foldl]. by destruct h. }
  split; [exact Hnoop|].
  intros h0 now w0 h w1 Hnd Hpp w2. apply Hnoop.
  apply process_pending_returns in Hpp; [|done]. subst h.
  cbn [pending set_pending]. intros kv Hkv.
  apply list_elem_of_filter in Hkv as [Hns _].
  unfold stabilized in *. by cbn [debounce set_pending].
Qed.

(** The theorem at two files still inside their window. *)
Lemma tick_without_due_entry_is_a_no_op_witness :
  tick Scenario.two_pending 1 (Scenario.world Scenario.two_files)
  = (Scenario.two_pending, Scenario.world Scenario.two_files, None).
Proof.
  apply (proj1 tick_without_due_entry_is_a_no_op Scenario.two_pending 1%Z
           (Scenario.world Scenario.two_files)).
  intros kv Hkv. unfold Scenario.two_pending, Scenario.handler in Hkv.
  cbn [pending] in Hkv.
  apply elem_of_cons in Hkv as [->|Hkv];
    [|apply list_elem_of_singleton in Hkv as ->];
    unfold stabilized; cbn; lia.
Defined.

(** ** [reorganize_all]: what a sweep leaves behind *)

Section SweepAfter.

Variables (b : Boop) (m : gmap string string).

Abbreviation root := (boop_watch_folder b).

Lemma reorganize_loop_skips entries count w :
  (forall p, p ∈ entries -> eligible (fs w) p = false) ->
  reorganize_loop b m entries count w = Returns count w.
Proof.
  induction entries as [|p rest IH]; intros Hall; [done|].
  rewrite reorganize_loop_transfer, (Hall p) by by left.
  apply IH. intros q Hq. apply Hall. by right.
Qed.

Lemma reorganize_loop_clears entries : forall count w,
  NoDup entries ->
  (forall p, p ∈ entries -> is_child root p = true /\ is_Some (fs w !! p)) ->
  fs w !! root = Some Dir ->
  (forall p, p ∈ entries -> eligible (fs w) p = true ->
             category_free (fs w) root m p) ->
  exists n w',
    reorganize_loop b m entries count w = Returns n w' /\
    fs w' !! root = Some Dir /\
    (forall q, is_child root q = true -> is_Some (fs w' !! q) ->
               eligible (fs w') q = true ->
               is_Some (fs w !! q) /\ eligible (fs w) q = true /\ q ∉ entries) /\
    match filter (fun p => eligible (fs w) p = true) entries with
    | [] => w' = w /\ n = count
    | _ :: _ =>
        exists src dst data,
          last (moves w') = Some (src, dst) /\
          last_file w' = Some dst /\
          fs w' !! dst = Some (File data)
    end.
Proof.
  induction entries as [|p rest IH]; intros count w Hnd Hch Hdir Hfree.
  { exists count, w. cbn. repeat split; try done. apply not_elem_of_nil. }
  apply NoDup_cons in Hnd as [Hp_rest Hnd].
  assert (forall q, q ∈ rest -> is_child root q = true /\ is_Some (fs w !! q))
    as Hch_rest by (intros q Hq; apply Hch; by right).
  assert (forall q, q ∈ rest -> eligible (fs w) q = true ->
                    category_free (fs w) root m q) as Hfree_rest
    by (intros q Hq; apply Hfree; by right).
  destruct (Hch p) as [Hp_child Hp_some]; [by left|].
  rewrite reorganize_loop_transfer, filter_cons.
  destruct (eligible (fs w) p) eqn:Hel.
  2:{ rewrite decide_False by done.
      destruct (IH count w Hnd Hch_rest Hdir Hfree_rest)
        as (n & w' & Hloop & Hdir' & Hleft & Hlast).
      exists n, w'. split; [done|]. split; [done|]. split; [|done].
      intros q Hq Hsome Helq. destruct (Hleft q Hq Hsome Helq) as (? & ? & ?).
      split; [done|]. split; [done|]. apply not_elem_of_cons. split; [|done].
      intros ->. congruence. }
  rewrite decide_True by done.
  destruct (eligible_file _ _ Hel Hp_some) as [[data Hp] Hdot].
  assert (folder_ready (fs w) (root // category_of m p)) as Hready.
  { pose proof (Hfree p ltac:(by left) Hel) as Hcf. unfold category_free in Hcf.
    destruct (fs w !! (root // category_of m p)) as [[data'|]|] eqn:Hc.
    - by destruct (Hcf data').
    - by left.
    - right. split; [done|]. by rewrite parent_join. }
  destruct (transfer_file root m p data w Hp Hready) as (dst & Hrun & Hff).
  rewrite Hrun. cbn [fs moves notified].
  set (f1 := with_folder (fs w) (root // category_of m p)) in *.
  set (w1 := mkWorld _ _ _ _).
  assert (f1 !! p = Some (File data)) as Hp1 by by apply with_folder_keeps.
  assert (f1 !! dst = None) as Hdst1 by by destruct Hff.
  assert (length dst = S (S (length root))) as Hlen.
  { destruct Hff as [_ [[_ ->]|[_ (k & _ & -> & _)]]];
      unfold candidate; by rewrite !length_join. }
  destruct (moved_file_lookups f1 p dst data Hp1 Hdst1) as (Hdst & Hgone & Hkeep1).
  assert (forall q n, q <> p -> fs w !! q = Some n -> fs w1 !! q = Some n) as Hkeep.
  { intros q n Hq Hn. apply Hkeep1; [done|]. by apply with_folder_keeps. }
  assert (forall q, q ∈ rest -> fs w1 !! q = fs w !! q) as Hsame.
  { intros q Hq. destruct (Hch_rest q Hq) as [_ [n Hn]].
    rewrite Hn. apply Hkeep; [|done]. intros ->. done. }
  assert (filter (fun q => eligible (fs w1) q = true) rest
          = filter (fun q => eligible (fs w) q = true) rest) as Hfilter.
  { apply filter_ext_in. intros q Hq. by rewrite (eligible_same _ _ _ (Hsame q Hq)). }
  destruct (IH (S count) w1) as (n & w' & Hloop & Hdir' & Hleft & Hlast).
  - done.
  - intros q Hq. destruct (Hch_rest q Hq) as [Hc Hs]. split; [done|].
    by rewrite Hsame.
  - apply Hkeep; [|done]. intros Heq. rewrite <- Heq in Hp. congruence.
  - intros q Hq Helq data' Hblock.
    rewrite (eligible_same _ _ _ (Hsame q Hq)) in Helq.
    pose proof (Hfree_rest q Hq Helq) as Hcf.
    set (x := root // category_of m q) in *.
    assert (x <> dst) as Hxd.
    { intros Heq. apply (f_equal length) in Heq. unfold x in Heq.
      rewrite length_join, Hlen in Heq. lia. }
    unfold w1 in Hblock. cbn [fs] in Hblock.
    rewrite lookup_insert_ne in Hblock by done.
    destruct (decide (x = p)) as [Hxp|Hxp].
    + rewrite Hxp, lookup_delete_eq in Hblock. done.
    + rewrite lookup_delete_ne in Hblock by done.
      destruct (decide (x = root // category_of m p)) as [Hxc|Hxc].
      * rewrite Hxc in Hblock. unfold f1 in Hblock.
        rewrite with_folder_dir in Hblock by done. done.
      * unfold f1 in Hblock. rewrite with_folder_other in Hblock by done.
        by apply (Hcf data').
  - exists n, w'. split; [done|]. split; [done|]. split.
    + intros q Hq Hsome Helq.
      destruct (Hleft q Hq Hsome Helq) as (Hsome1 & Hel1 & Hnot_rest).
      assert (q <> dst) as Hqd.
      { intros ->. apply child_length in Hq. lia. }
      assert (q <> p) as Hqp.
      { intros ->. unfold w1 in Hsome1. cbn [fs] in Hsome1.
        rewrite Hgone in Hsome1. by destruct Hsome1. }
      assert (q <> root // category_of m p) as Hqc.
      { intros ->. unfold eligible, w1 in Hel1. cbn [fs] in Hel1.
        rewrite lookup_insert_ne, lookup_delete_ne in Hel1 by done.
        unfold f1 in Hel1. rewrite with_folder_dir in Hel1 by done.
        by rewrite bool_decide_eq_true_2 in Hel1. }
      assert (fs w1 !! q = fs w !! q) as Hq1.
      { unfold w1. cbn [fs]. rewrite lookup_insert_ne, lookup_delete_ne by done.
        unfold f1. by apply with_folder_other. }
      rewrite Hq1 in Hsome1. rewrite (eligible_same _ _ _ Hq1) in Hel1.
      split; [done|]. split; [done|]. by apply not_elem_of_cons.
    + rewrite Hfilter in Hlast.
      destruct (filter (fun q => eligible (fs w) q = true) rest) as [|q0 qs].
      * destruct Hlast as [-> _]. exists p, dst, data. unfold w1.
        cbn [moves last_file fs]. by rewrite last_snoc.
      * done.
Qed.

End SweepAfter.

(** X6 (reorganize_all): a sweep of a folder that holds nothing to move
    (it is empty, or holds only folders and hidden files) returns 0 and
    leaves the world as it is: no folder is made, no callback called. *)
Theorem reorganize_all_of_nothing :
  forall b w,
    fs w !! boop_watch_folder b = Some Dir ->
    (forall p, p ∈ children (fs w) (boop_watch_folder b) ->
               eligible (fs w) p = false) ->
    reorganize_all b w = Returns 0%nat w.
Proof.
  intros b w Hdir Hnone. unfold reorganize_all, bind, iterdir. rewrite Hdir.
  by apply reorganize_loop_skips.
Qed.

(** The theorem at the empty watched folder. *)
Lemma reorganize_all_of_nothing_witness :
  reorganize_all Scenario.boop (Scenario.world Scenario.empty_folder)
  = Returns 0%nat (Scenario.world Scenario.empty_folder).
Proof.
  apply reorganize_all_of_nothing.
  - vm_compute. reflexivity.
  - intros p Hp. vm_compute in Hp. by apply elem_of_nil in Hp.
Defined.

(** X7 (reorganize_all): after a sweep that is not blocked, every entry
    left directly inside the watched folder is a folder or hidden, and a
    second sweep, made at once, returns 0 and changes nothing. *)
Theorem reorganize_all_twice :
  forall b w,
    let folder := boop_watch_folder b in
    let m := build_extension_map (config_categories b) in
    fs w !! folder = Some Dir ->
    (forall p, p ∈ children (fs w) folder -> eligible (fs w) p = true ->
               category_free (fs w) folder m p) ->
    exists n w',
      reorganize_all b w = Returns n w' /\
      (forall q, q ∈ children (fs w') folder -> eligible (fs w') q = false) /\
      reorganize_all b w' = Returns 0%nat w'.
Proof.
  intros b w folder m Hdir Hfree.
  destruct (reorganize_loop_clears b m (children (fs w) folder) 0 w)
    as (n & w' & Hloop & Hdir' & Hleft & _).
  - apply NoDup_children.
  - intros p Hp. by apply elem_of_children.
  - done.
  - done.
  - assert (forall q, q ∈ children (fs w') folder -> eligible (fs w') q = false)
      as Hclean.
    { intros q Hq. apply elem_of_children in Hq as [Hc Hs].
      destruct (eligible (fs w') q) eqn:Hel; [|done].
      destruct (Hleft q Hc Hs Hel) as (Hs0 & _ & Hnot).
      exfalso. apply Hnot. by apply elem_of_children. }
    exists n, w'. split; [|split; [done|]].
    + unfold reorganize_all, bind, iterdir. fold folder. by rewrite Hdir.
    + unfold reorganize_all, bind, iterdir. rewrite Hdir'.
      by apply reorganize_loop_skips.
Qed.

(** The theorem at the folder with two files, a hidden file and a folder. *)
Lemma reorganize_all_twice_witness :
  exists n w',
    reorganize_all Scenario.boop (Scenario.world Scenario.mixed_folder)
      = Returns n w' /\
    reorganize_all Scenario.boop w' = Returns 0%nat w'.
Proof.
  destruct (reorganize_all_twice Scenario.boop
              (Scenario.world Scenario.mixed_folder))
    as (n & w' & Hrun & _ & Hagain).
  - vm_compute. reflexivity.
  - intros p Hp _ data.
    change (p ∈ children Scenario.mixed_folder ["D"]) in Hp.
    assert (children Scenario.mixed_folder ["D"]
            = [["D"; "notes.txt"]; ["D"; ".hidden"]; ["D"; "photo.jpg"];
               ["D"; "sub"]]) as Hlist by (vm_compute; reflexivity).
    rewrite Hlist in Hp.
    repeat (apply elem_of_cons in Hp as [->|Hp]; [vm_compute; discriminate|]).
    destruct (not_elem_of_nil _ Hp).
  - exists n, w'. split; [exact Hrun | exact Hagain].
Defined.

(** X8 (reorganize_all, open_last_file): after a sweep that is not blocked
    and has something to move, [last_file] is the destination of the last
    move and is on disk, so that [open_last_file] launches the file manager
    on it, on every platform. *)
Theorem open_last_file_after_sweep :
  forall b w,
    let folder := boop_watch_folder b in
    let m := build_extension_map (config_categories b) in
    fs w !! folder = Some Dir ->
    (forall p, p ∈ children (fs w) folder -> eligible (fs w) p = true ->
               category_free (fs w) folder m p) ->
    filter (fun p => eligible (fs w) p = true) (children (fs w) folder) <> [] ->
    exists n w' src dst,
      reorganize_all b w = Returns n w' /\
      last (moves w') = Some (src, dst) /\
      last_file w' = Some dst /\
      is_Some (fs w' !! dst) /\
      forall str system,
        open_last_file str system w' = Some (open_in_file_manager str system dst).
Proof.
  intros b w folder m Hdir Hfree Hsome.
  destruct (reorganize_loop_clears b m (children (fs w) folder) 0 w)
    as (n & w' & Hloop & _ & _ & Hlast).
  - apply NoDup_children.
  - intros p Hp. by apply elem_of_children.
  - done.
  - done.
  - fold folder in Hlast.
    destruct (filter _ (children (fs w) folder)) as [|q qs]; [done|].
    destruct Hlast as (src & dst & data & Hmv & Hlf & Hdst).
    exists n, w', src, dst. split.
    { unfold reorganize_all, bind, iterdir. fold folder. by rewrite Hdir. }
    split; [done|]. split; [done|]. split; [by eexists|].
    intros str system. unfold open_last_file. rewrite Hlf.
    assert (occupied (fs w') dst = true) as ->; [|done].
    apply occupied_true. by eexists.
Qed.

(** The theorem at the folder with two files, a hidden file and a folder,
    on a Linux desktop. *)
Lemma open_last_file_after_sweep_witness :
  exists n w' dst,
    reorganize_all Scenario.boop (Scenario.world Scenario.mixed_folder)
      = Returns n w' /\
    last_file w' = Some dst /\
    forall str,
      open_last_file str "Linux" w' = Some ["xdg-open"; str (PurePath.parent dst)].
Proof.
  destruct (open_last_file_after_sweep Scenario.boop
              (Scenario.world Scenario.mixed_folder))
    as (n & w' & src & dst & Hrun & _ & Hlf & _ & Hopen).
  - vm_compute. reflexivity.
  - intros p Hp _ data.
    change (p ∈ children Scenario.mixed_folder ["D"]) in Hp.
    assert (children Scenario.mixed_folder ["D"]
            = [["D"; "notes.txt"]; ["D"; ".hidden"]; ["D"; "photo.jpg"];
               ["D"; "sub"]]) as Hlist by (vm_compute; reflexivity).
    rewrite Hlist in Hp.
    repeat (apply elem_of_cons in Hp as [->|Hp]; [vm_compute; discriminate|]).
    destruct (not_elem_of_nil _ Hp).
  - vm_compute. discriminate.
  - exists n, w', dst. split; [exact Hrun|]. split; [exact Hlf|].
    intros str. rewrite Hopen. reflexivity.
Defined.

(** ** Where the entries of the pending set come from *)

Section Stamps.

Implicit Types (h : DownloadHandler) (c : call) (cs : list call) (p : path).

Lemma process_pending_keeps_entries h now w h' w' kv :
  process_pending h now w = Returns h' w' -> kv ∈ pending h' -> kv ∈ pending h.
Proof.
  unfold process_pending, bind, ret.
  destruct (pending_loop _ _ _ _ _) as [r w1|]; [|done].
  intros [= <- <-]. cbn [pending set_pending]. rewrite foldl_dict_pop.
  intros Hin. by apply list_elem_of_filter in Hin as [_ Hin].
Qed.

Lemma step_entries h c p t :
  (p, t) ∈ pending (engine_step h c) -> (p, t) ∈ pending h \/ stamps p t c.
Proof.
  destruct c as [ev now|ev now|now w]; cbn [engine_step stamps].
  - unfold on_created. destruct (is_directory ev) eqn:Hd; [by left|].
    case_bool_decide; [by left|].
    destruct (startswith_dot _); [by left|]. cbn [pending set_pending].
    intros Hin. apply elem_of_dict_set in Hin as [(-> & -> & _)|[_ Hin]];
      [by right | by left].
  - unfold on_modified. destruct (is_directory ev) eqn:Hd; [by left|].
    destruct (dict_mem _ _); [|by left]. cbn [pending set_pending].
    intros Hin. apply elem_of_dict_set in Hin as [(-> & -> & _)|[_ Hin]];
      [by right | by left].
  - unfold tick.
    destruct (process_pending h now w) as [h' w'|] eqn:Hpp; [|by left].
    cbn [fst]. intros Hin. left.
    by apply (process_pending_keeps_entries h now w h' w').
Qed.

Lemma run_entries h cs p t :
  (p, t) ∈ pending (run h cs) ->
  (p, t) ∈ pending h \/ Exists (stamps p t) cs.
Proof.
  revert h. induction cs as [|c cs IH]; intros h; [by left|].
  change (run h (c :: cs)) with (run (engine_step h c) cs).
  intros Hin. apply IH in Hin as [Hin|Hex].
  - apply step_entries in Hin as [Hin|Hst]; [by left|].
    right. by apply Exists_cons_hd.
  - right. by apply Exists_cons_tl.
Qed.

End Stamps.

(** X9 (on_created, on_modified, process_pending): in every state the
    engine reaches from its construction, each pending entry lies directly
    inside the watched folder, has a name that does not start with a dot,
    and carries the time of a recorded event of that very file: neither a
    tick nor an event of a folder or of another path ever sets a time
    stamp, and no path is pending twice. *)
Theorem pending_entries_are_recorded_events :
  forall watch m d callback cs,
    let h := run (new_handler watch m d callback) cs in
    NoDup (pending h).*1 /\
    forall p t,
      (p, t) ∈ pending h ->
      PurePath.parent p = watch /\
      startswith_dot (PurePath.name p) = false /\
      Exists (stamps p t) cs.
Proof.
  intros watch m d callback cs h. split.
  { apply run_NoDup. cbn. constructor. }
  intros p t Hin. split; [|split].
  - assert (p ∈ (pending h).*1) as Hk by (apply elem_of_keys; by exists t).
    apply run_keys in Hk as [[Hk _]|(cs1 & ev & now & cs2 & _ & Hacc & <- & _)];
      [| |cbn; constructor].
    + cbn in Hk. by apply elem_of_nil in Hk.
    + by destruct Hacc as (_ & Hpar & _).
  - assert (p ∈ (pending h).*1) as Hk by (apply elem_of_keys; by exists t).
    apply run_keys in Hk as [[Hk _]|(cs1 & ev & now & cs2 & _ & Hacc & <- & _)];
      [| |cbn; constructor].
    + cbn in Hk. by apply elem_of_nil in Hk.
    + by destruct Hacc as (_ & _ & Hdot).
  - apply run_entries in Hin as [Hin|Hex]; [|done].
    cbn in Hin. by apply elem_of_nil in Hin.
Qed.

(** ** The extension index as a whole *)

Lemma lower_char_idem c : lower_char (lower_char c) = lower_char c.
Proof. destruct c as [[] [] [] [] [] [] [] []]; reflexivity. Qed.

Lemma lower_idem s : lower (lower s) = lower s.
Proof.
  induction s as [|c s IH]; [done|]. cbn [lower].
  by rewrite lower_char_idem, IH.
Qed.

Lemma elem_of_table_pairs cats c ext :
  (c, ext) ∈ table_pairs cats <-> exists exts, (c, exts) ∈ cats /\ ext ∈ exts.
Proof.
  unfold table_pairs. rewrite list_elem_of_bind. split.
  - intros ([c' exts] & Hin & Hcats).
    apply list_elem_of_fmap in Hin as (ext' & [= -> ->] & Hext).
    by exists exts.
  - intros (exts & Hcats & Hext). exists (c, exts). split; [|done].
    apply list_elem_of_fmap. by exists ext.
Qed.

Lemma last_elem_of {A} (l : list A) x : last l = Some x -> x ∈ l.
Proof.
  intros H. apply last_Some in H as [l' ->].
  apply elem_of_app. right. by left.
Qed.

(** X10 (build_extension_map): every key of the index is lower-case and is
    the lower-cased form of an extension that its category lists; every
    extension the table lists, in whatever case, is a key once lower-cased
    and leads to a category of the table; so a file is always classified
    into a category of the table or into ["Other"]. *)
Theorem index_keys_are_lower_case_and_listed :
  forall cats,
    let index := build_extension_map cats in
    (forall e c,
       index !! e = Some c ->
       lower e = e /\
       exists exts ext, (c, exts) ∈ cats /\ ext ∈ exts /\ lower ext = e) /\
    (forall c exts ext,
       (c, exts) ∈ cats -> ext ∈ exts ->
       exists c', index !! lower ext = Some c' /\ c' ∈ cats.*1) /\
    (forall p,
       category_of index p = "Other" \/ category_of index p ∈ cats.*1).
Proof.
  intros cats index.
  assert (forall e c,
    index !! e = Some c ->
    exists ext, (c, ext) ∈ table_pairs cats /\ lower ext = e) as Hkey.
  { intros e c. unfold index, build_extension_map.
    rewrite build_extension_map_pairs_from, foldl_insert_pair_lookup.
    destruct (last _) as [[c' ext]|] eqn:Hlast; [|done].
    intros [= <-]. apply last_elem_of in Hlast.
    apply list_elem_of_filter in Hlast as [Hlow Hin]. by exists ext. }
  assert (forall e c, index !! e = Some c -> c ∈ cats.*1) as Hval.
  { intros e c He. destruct (Hkey e c He) as (ext & Hin & _).
    apply elem_of_table_pairs in Hin as (exts & Hin & _).
    apply list_elem_of_fmap. by exists (c, exts). }
  split; [|split].
  - intros e c He. destruct (Hkey e c He) as (ext & Hin & <-).
    split; [apply lower_idem|].
    apply elem_of_table_pairs in Hin as (exts & Hin & Hext).
    by exists exts, ext.
  - intros c exts ext Hin Hext.
    assert (is_Some (index !! lower ext)) as [c' Hc'].
    { unfold index, build_extension_map.
      rewrite build_extension_map_pairs_from, foldl_insert_pair_lookup.
      destruct (last _) as [ce|] eqn:Hlast; [by eexists|].
      exfalso. apply last_None in Hlast.
      assert ((c, ext) ∈ filter (fun ce : string * string => lower ce.2 = lower ext)
                           (table_pairs cats)) as Hmem.
      { apply list_elem_of_filter. split; [done|].
        apply elem_of_table_pairs. by exists exts. }
      rewrite Hlast in Hmem. by apply elem_of_nil in Hmem. }
    exists c'. split; [done|]. by apply (Hval (lower ext)).
  - intros p. unfold category_of.
    destruct (index !! lower (PurePath.suffix p)) as [c|] eqn:Hc; [|by left].
    right. by apply (Hval _ _ Hc).
Qed.

(** ** The name shown in the menu *)

Lemma length_str_take n s :
  String.length (str_take n s) = Nat.min n (String.length s).
Proof.
  unfold str_take. revert n. induction s as [|c s IH]; intros [|n]; try done.
  cbn [String.substring String.length]. by rewrite IH.
Qed.

Lemma str_take_take n s1 s2 :
  (n <= String.length s1)%nat -> str_take n (s1 +:+ s2) = str_take n s1.
Proof.
  unfold str_take. revert n. induction s1 as [|c s1 IH]; intros [|n] Hn.
  - by destruct s2.
  - cbn in Hn. lia.
  - done.
  - change (String c s1 +:+ s2) with (String c (s1 +:+ s2)).
    cbn [String.substring]. rewrite IH; [done|]. cbn in Hn. lia.
Qed.

Lemma str_take_idem n s : str_take n (str_take n s) = str_take n s.
Proof.
  unfold str_take. revert n. induction s as [|c s IH]; intros [|n]; try done.
  cbn [String.substring]. by rewrite IH.
Qed.

(** X11 (on_file_moved of the menus): the name shown for a moved file is
    never longer than 30 characters; a name of at most 30 characters is
    shown as it is; a longer one is shown as its first 27 characters
    followed by three dots, which makes exactly 30. *)
Theorem shown_name_fits_the_menu :
  forall p,
    let nm := PurePath.name p in
    (String.length (shown_name p) <= 30)%nat /\
    ((String.length nm <= 30)%nat -> shown_name p = nm) /\
    ((30 < String.length nm)%nat ->
     shown_name p = str_take 27 nm +:+ "..." /\
     String.length (shown_name p) = 30%nat /\
     str_take 27 (shown_name p) = str_take 27 nm).
Proof.
  intros p nm. unfold shown_name. fold nm.
  destruct (Nat.leb_spec (String.length nm) 30) as [Hle|Hgt].
  - split; [done|]. split; [done|]. lia.
  - assert (String.length (str_take 27 nm) = 27%nat) as Hlen.
    { rewrite length_str_take. lia. }
    assert (String.length (str_take 27 nm +:+ "...") = 30%nat) as Hlen'.
    { rewrite string_length_app, Hlen. reflexivity. }
    split; [lia|]. split; [lia|]. intros _. split; [done|]. split; [done|].
    rewrite str_take_take by lia. apply str_take_idem.
Qed.

(** * The debounce gate of [tick] *)

Section Processing.

Variables (h : DownloadHandler) (now : Z).

Lemma callbacks_of_cons sd ms :
  callbacks_of h [sd] ++ callbacks_of h ms = callbacks_of h (sd :: ms).
Proof. unfold callbacks_of. by destruct (on_file_moved h). Qed.

Lemma unshadowed_tail kv items p :
  unshadowed h now (kv :: items) p -> unshadowed h now items p.
Proof. intros H q last Hin. apply H. by right. Qed.

(** Paths directly inside one folder are not above one another. *)
Lemma children_unshadowed folder items p :
  (forall q last, (q, last) ∈ items -> is_child folder q = true) ->
  is_child folder p = true ->
  unshadowed h now items p.
Proof.
  intros Hch Hp q last Hin _ [k Hk].
  apply Hch in Hin. unfold is_child in *.
  apply bool_decide_eq_true in Hin as [Hq Hqp], Hp as [Hp Hpp].
  unfold PurePath.parent in *.
  assert (length q = length p) as Hlen.
  { rewrite (app_removelast_last "" Hq), (app_removelast_last "" Hp).
    rewrite !length_app. cbn. by rewrite Hqp, Hpp. }
  rewrite Hk, length_app in Hlen.
  destruct k; [by rewrite app_nil_r in Hk | cbn in Hlen; lia].
Qed.

(** The loop when it returns: what it has done to the world.  Every entry
    that is due, on disk at the start and out of the way of the entries
    before it has been handed to [move_file]. *)
Lemma pending_loop_processes items : forall acc w r w',
  NoDup items.*1 ->
  pending_loop h now items acc w = Returns r w' ->
  exists ms,
    moves w' = moves w ++ ms /\
    notified w' = notified w ++ callbacks_of h ms /\
    ms.*1 `sublist_of` (filter (stabilized h now) items).*1 /\
    (forall src dst, (src, dst) ∈ ms ->
       PurePath.parent dst = watch_folder h // category_of (ext_map h) src) /\
    (forall p last, (p, last) ∈ items -> stabilized h now (p, last) ->
       is_Some (fs w !! p) -> unshadowed h now items p ->
       exists dst, (p, dst) ∈ ms).
Proof.
  induction items as [|[p0 last0] items IH]; intros acc w r w' Hnd Hrun.
  - cbn in Hrun. injection Hrun as <- <-. exists [].
    rewrite app_nil_r. split; [done|]. split.
    { unfold callbacks_of. destruct (on_file_moved h); by rewrite app_nil_r. }
    split; [done|]. split.
    + intros src dst Hin. destruct (not_elem_of_nil _ Hin).
    + intros p last Hin. destruct (not_elem_of_nil _ Hin).
  - cbn [pending_loop] in Hrun. rewrite filter_cons.
    rewrite fmap_cons in Hnd. cbn [fst] in Hnd.
    apply NoDup_cons in Hnd as [Hfresh Hnd].
    destruct (Z.ltb_spec (now - last0) (debounce h)) as [Hlt|Hge].
    + rewrite decide_False by (unfold stabilized; cbn; lia).
      destruct (IH _ _ _ _ Hnd Hrun) as (ms & Hmoves & Hnot & Hsub & Hpar & Hall).
      exists ms. repeat (split; [done|]).
      intros p last Hin Hst Hp Hun.
      apply elem_of_cons in Hin as [[= -> ->]|Hin].
      { unfold stabilized in Hst. cbn in Hst. lia. }
      apply (Hall p last Hin Hst Hp). by apply unshadowed_tail in Hun.
    + rewrite decide_True by (unfold stabilized; cbn; lia).
      rewrite fmap_cons. cbn [fst].
      unfold bind at 1, path_exists in Hrun.
      destruct (occupied (fs w) p0) eqn:Hocc; cbn [negb] in Hrun.
      * unfold bind at 1 in Hrun.
        destruct (move_file h p0 w) as [v w1|] eqn:Hmv; [|done].
        apply move_file_returns in Hmv as (dst0 & Hpar0 & Hmoves0 & Hnot0 & Hkeep0).
        destruct (IH _ _ _ _ Hnd Hrun) as (ms & Hmoves & Hnot & Hsub & Hpar & Hall).
        exists ((p0, dst0) :: ms).
        split. { by rewrite Hmoves, Hmoves0, <- app_assoc. }
        split. { by rewrite Hnot, Hnot0, <- app_assoc, callbacks_of_cons. }
        split. { rewrite fmap_cons. by apply sublist_skip. }
        split.
        { intros src dst Hin. apply elem_of_cons in Hin as [[= -> ->]|Hin]; [done|].
          by apply Hpar. }
        intros p last Hin Hst Hp Hun.
        destruct (decide (p = p0)) as [->|Hne].
        { exists dst0. by left. }
        apply elem_of_cons in Hin as [[= -> ->]|Hin]; [done|].
        destruct (Hall p last Hin Hst) as [dst Hdst].
        -- destruct Hp as [n Hn]. exists n. apply Hkeep0; [|done].
           intros Hpre. apply Hne. symmetry.
           apply (Hun p0 last0); [by left | | done].
           unfold stabilized. cbn. lia.
        -- by apply unshadowed_tail in Hun.
        -- exists dst. by right.
      * apply occupied_false in Hocc.
        destruct (IH _ _ _ _ Hnd Hrun) as (ms & Hmoves & Hnot & Hsub & Hpar & Hall).
        exists ms. split; [done|]. split; [done|].
        split. { by apply sublist_cons. }
        split; [done|].
        intros p last Hin Hst Hp Hun.
        apply elem_of_cons in Hin as [[= -> ->]|Hin].
        { rewrite Hocc in Hp. by destruct Hp. }
        apply (Hall p last Hin Hst Hp). by apply unshadowed_tail in Hun.
Qed.

(** The loop when no due entry is on disk: every one of them is passed
    over, and nothing happens. *)
Lemma pending_loop_passes_over items : forall acc w,
  (forall p last, (p, last) ∈ items -> stabilized h now (p, last) ->
                  fs w !! p = None) ->
  pending_loop h now items acc w
  = Returns (acc ++ (filter (stabilized h now) items).*1) w.
Proof.
  induction items as [|[p0 last0] items IH]; intros acc w Hgone.
  - cbn. by rewrite app_nil_r.
  - cbn [pending_loop]. rewrite filter_cons.
    assert (forall p last, (p, last) ∈ items -> stabilized h now (p, last) ->
                           fs w !! p = None) as Hgone'.
    { intros p last Hin. apply Hgone. by right. }
    destruct (Z.ltb_spec (now - last0) (debounce h)) as [Hlt|Hge].
    + rewrite decide_False by (unfold stabilized; cbn; lia). by apply IH.
    + rewrite decide_True by (unfold stabilized; cbn; lia).
      rewrite fmap_cons. cbn [fst].
      unfold bind at 1, path_exists.
      assert (occupied (fs w) p0 = false) as ->.
      { apply occupied_false. apply (Hgone p0 last0); [by left|].
        unfold stabilized. cbn. lia. }
      cbn [negb]. rewrite IH by done. by rewrite <- app_assoc.
Qed.

End Processing.

(** C1 as the code has it.  In a tick that returns, the entries handed to
    processing are exactly those with [now - lastSeen >= debounceWindow],
    and processing is what the loop does to the world: the moves the tick
    has made are moves of due entries only, at most one for each, in the
    order of the pending set, each into the category folder of its file and
    each followed by the callback; and every due entry whose file is on
    disk, and not beneath another due pending path, is the source of one
    of them.  Pending paths directly inside one folder are never beneath
    one another.  When no due entry is on disk, the tick passes them all
    over: it returns and the world is as it was.  When the turn of a due
    entry comes and its file is on disk, the loop calls [move_file] on it
    and goes on with the world this leaves.  Whatever the outcome of
    the tick, a file is moved by it only if its entry has reached the
    window; an entry still inside the window stays in the pending set with
    its time stamp and its file is not moved; in particular a file created
    at [t0] and not modified since is not moved by a tick at [now] with
    [now - t0 < debounceWindow]. *)
Theorem tick_debounce_gate :
  forall h now w,
    NoDup (pending h).*1 ->
    (forall to_remove w',
       pending_loop h now (pending h) [] w = Returns to_remove w' ->
       forall p last, (p, last) ∈ pending h ->
         (p ∈ to_remove <-> (debounce h <= now - last)%Z)) /\
    (forall src dst,
       (src, dst) ∈ moves (tick h now w).1.2 ->
       (src, dst) ∈ moves w \/
       exists last, (src, last) ∈ pending h /\ (debounce h <= now - last)%Z) /\
    (forall p last,
       (p, last) ∈ pending h -> (now - last < debounce h)%Z ->
       (p, last) ∈ pending (tick h now w).1.1 /\
       forall dst, (p, dst) ∈ moves (tick h now w).1.2 -> (p, dst) ∈ moves w) /\
    (forall ev t0,
       is_directory ev = false ->
       PurePath.parent (src_path ev) = watch_folder h ->
       startswith_dot (PurePath.name (src_path ev)) = false ->
       (now - t0 < debounce h)%Z ->
       let h1 := on_created h ev t0 in
       (src_path ev, t0) ∈ pending (tick h1 now w).1.1 /\
       forall dst, (src_path ev, dst) ∈ moves (tick h1 now w).1.2 ->
                   (src_path ev, dst) ∈ moves w) /\
    (forall h' w',
       tick h now w = (h', w', None) ->
       exists ms,
         moves w' = moves w ++ ms /\
         notified w' = notified w ++ callbacks_of h ms /\
         ms.*1 `sublist_of` (filter (stabilized h now) (pending h)).*1 /\
         (forall src dst, (src, dst) ∈ ms ->
            PurePath.parent dst = watch_folder h // category_of (ext_map h) src) /\
         (forall p last,
            (p, last) ∈ pending h -> (debounce h <= now - last)%Z ->
            is_Some (fs w !! p) -> unshadowed h now (pending h) p ->
            exists dst, (p, dst) ∈ ms)) /\
    ((forall p last, (p, last) ∈ pending h ->
        is_child (watch_folder h) p = true) ->
     forall p last, (p, last) ∈ pending h -> unshadowed h now (pending h) p) /\
    ((forall p last,
        (p, last) ∈ pending h -> (debounce h <= now - last)%Z ->
        fs w !! p = None) ->
     tick h now w =
       (set_pending (filter (fun kv => ~ stabilized h now kv) (pending h)) h,
        w, None)) /\
    (forall p last rest to_remove w0,
       (debounce h <= now - last)%Z -> is_Some (fs w0 !! p) ->
       pending_loop h now ((p, last) :: rest) to_remove w0
       = (move_file h p ;; pending_loop h now rest (to_remove ++ [p])) w0).
Proof.
  intros h now w Hnd.
  split; [|split; [|split; [|split; [|split; [|split; [|split]]]]]].
  - intros to_remove w' Hloop p last Hin.
    apply pending_loop_collects in Hloop. cbn in Hloop. subst to_remove.
    rewrite list_elem_of_fmap. split.
    + intros ([p' last'] & -> & Hin'). cbn in Hin.
      apply list_elem_of_filter in Hin' as [Hst Hin'].
      by rewrite (dict_unique _ _ _ _ Hnd Hin Hin').
    + intros Hst. exists (p, last). split; [done|].
      by apply list_elem_of_filter.
  - intros src dst Hmv. rewrite tick_world in Hmv.
    by apply process_pending_moves in Hmv.
  - intros p last Hin Hlt.
    destruct (tick h now w) as [[h' w'] e] eqn:Htick. cbn.
    by apply (tick_spares_unstabilized h now w p last h' w' e).
  - intros ev t0 Hdir Hpar Hdot Hlt h1.
    destruct (tick h1 now w) as [[h' w'] e] eqn:Htick. cbn.
    assert (pending h1 = dict_set (src_path ev) t0 (pending h)) as Hpd.
    { unfold h1. by rewrite on_created_tracks. }
    apply (tick_spares_unstabilized h1 now w (src_path ev) t0 h' w' e).
    + rewrite Hpd. by apply dict_set_NoDup.
    + rewrite Hpd. apply elem_of_dict_set. by left.
    + unfold h1. by rewrite on_created_tracks.
    + done.
  - intros h' w' Htick. unfold tick, process_pending, bind, ret in Htick.
    destruct (pending_loop h now (pending h) [] w) as [r w1|] eqn:Hloop;
      [|done].
    injection Htick as _ <-.
    by apply (pending_loop_processes h now (pending h) [] w r w1).
  - intros Hch p last Hin.
    apply (children_unshadowed h now (watch_folder h)); [done|].
    by apply (Hch p last).
  - intros Hgone. unfold tick.
    assert (process_pending h now w =
            Returns (set_pending (foldl (fun d p => dict_pop p d) (pending h)
                                   ([] ++ (filter (stabilized h now) (pending h)).*1)) h) w)
      as Hpp.
    { unfold process_pending, bind, ret.
      by rewrite (pending_loop_passes_over h now (pending h) [] w). }
    rewrite Hpp. by rewrite (process_pending_returns _ _ _ _ _ Hnd Hpp) at 1.
  - intros p last rest acc w0 Hge Hp. cbn [pending_loop].
    destruct (Z.ltb_spec (now - last) (debounce h)) as [Hlt|_]; [lia|].
    unfold bind at 1, path_exists.
    apply occupied_true in Hp. by rewrite Hp.
Qed.

(** The gate at two pending files, one past the window and one inside:
    the first is handed to processing and is moved into [Other], the
    second is not and stays. *)
Lemma tick_debounce_gate_witness :
  (exists to_remove w',
     pending_loop Scenario.two_pending 5 (pending Scenario.two_pending) []
       (Scenario.world Scenario.two_files) = Returns to_remove w' /\
     ["D"; "a.txt"] ∈ to_remove /\ ["D"; "b.txt"] ∉ to_remove) /\
  (["D"; "b.txt"], 4%Z) ∈
    pending (tick Scenario.two_pending 5
               (Scenario.world Scenario.two_files)).1.1 /\
  (exists h' w' dst,
     tick Scenario.two_pending 5 (Scenario.world Scenario.two_files)
       = (h', w', None) /\
     (["D"; "a.txt"], dst) ∈ moves w' /\
     PurePath.parent dst = ["D"; "Other"]).
Proof.
  assert (NoDup (pending Scenario.two_pending).*1) as Hnd.
  { by_evaluation. }
  assert ((["D"; "a.txt"], 0%Z) ∈ pending Scenario.two_pending) as Ha.
  { by_evaluation. }
  assert ((["D"; "b.txt"], 4%Z) ∈ pending Scenario.two_pending) as Hb.
  { by_evaluation. }
  destruct (tick_debounce_gate Scenario.two_pending 5
              (Scenario.world Scenario.two_files) Hnd)
    as (Hgate & _ & Hkeep & _ & Hdone & Hclear & _).
  set (loop := pending_loop Scenario.two_pending 5
                 (pending Scenario.two_pending) []
                 (Scenario.world Scenario.two_files)) in *.
  assert (loop = Returns [["D"; "a.txt"]] (after loop)) as Hloop.
  { vm_compute. reflexivity. }
  split; [|split].
  - eexists _, _. split; [exact Hloop|]. split.
    + apply (Hgate _ _ Hloop _ _ Ha). vm_compute. discriminate.
    + intros Hin. apply (Hgate _ _ Hloop _ _ Hb) in Hin. vm_compute in Hin.
      by apply Hin.
  - apply (Hkeep ["D"; "b.txt"] 4%Z Hb). vm_compute. reflexivity.
  - set (t := tick Scenario.two_pending 5 (Scenario.world Scenario.two_files))
      in *.
    assert (t = (t.1.1, t.1.2, None)) as Htick.
    { vm_compute. reflexivity. }
    destruct (Hdone _ _ Htick) as (ms & Hmoves & _ & _ & Hpar & Hall).
    destruct (Hall ["D"; "a.txt"] 0%Z Ha) as [dst Hdst].
    + vm_compute. discriminate.
    + exists (File "a"). vm_compute. reflexivity.
    + apply (fun Hch => Hclear Hch _ _ Ha).
      intros p last Hin.
      apply elem_of_cons in Hin as [Heq|Hin].
      { injection Heq as -> _. vm_compute. reflexivity. }
      apply elem_of_cons in Hin as [Heq|Hin].
      { injection Heq as -> _. vm_compute. reflexivity. }
      destruct (not_elem_of_nil _ Hin).
    + exists t.1.1, t.1.2, dst. split; [exact Htick|]. split.
      * rewrite Hmoves. apply elem_of_app. right. exact Hdst.
      * rewrite (Hpar _ _ Hdst). vm_compute. reflexivity.
Defined.

(** C1 as the specification states it fails: [b.txt] is pending, past the
    window and on disk, yet the tick does not process it, because the move
    of the entry before it raised. *)
Lemma tick_skips_stabilized_after_error :
  let h := Scenario.blocked_pending in
  let w := Scenario.world Scenario.file_named_other in
  (["D"; "b.txt"], 0%Z) ∈ pending h /\
  (debounce h <= 5 - 0)%Z /\
  fs w !! ["D"; "b.txt"] = Some (File "y") /\
  tick h 5 w = (h, w, Some FileExistsError).
Proof.
  split; [|split; [|split]].
  - by_evaluation.
  - vm_compute. discriminate.
  - vm_compute. reflexivity.
  - vm_compute. reflexivity.
Qed.
